(** * charges_calc.py: validation and enrichment of rental records

    A shallow embedding of
    [students/JoeNunnelley/lesson02/assignment/charges_calc.py] and the
    properties of its validator ([check_value_set]), its batch loop
    ([calculate_additional_fields]) and its two file adapters
    ([load_rentals_file], [save_to_json]).

    Python values are the values [json.load] produces.  Exceptions and the
    records handed to [LOGGER] are explicit: a computation returns its
    outcome together with the log entries it emitted.  Python [int] is [Z];
    Python [float] is a binary64 number of [SpecFloat] (prec 53, emax 1024);
    a [str] is a [string] whose characters are code points below 256; a
    [dict] is an association list in insertion order. *)

From Stdlib Require Import ZArith List String Ascii Bool Lia.
From Stdlib Require Import SpecFloat.
Import ListNotations.

Local Open Scope string_scope.
Local Open Scope list_scope.
Local Open Scope Z_scope.

(** ** Python dictionaries, in insertion order *)

Module Dict.

Definition dict (V : Type) : Type := list (string * V).

Fixpoint get {V} (k : string) (d : dict V) : option V :=
  match d with
  | [] => None
  | (k', v) :: d' => if String.eqb k k' then Some v else get k d'
  end.

(** [d[k] = v] and [d.update({k: v})]: an existing key keeps its position,
    a new key goes last. *)
Fixpoint set {V} (k : string) (v : V) (d : dict V) : dict V :=
  match d with
  | [] => [(k, v)]
  | (k', v') :: d' =>
      if String.eqb k k' then (k', v) :: d' else (k', v') :: set k v d'
  end.

Definition keys {V} (d : dict V) : list string := map fst d.

(** The keys of a Python dict are pairwise distinct. *)
Definition wf {V} (d : dict V) : Prop := NoDup (keys d).

End Dict.

(** ** Values, exceptions, log entries *)

#[local] Unset Elimination Schemes.
Inductive pyval : Type :=
| PNone
| PBool (b : bool)
| PInt (z : Z)
| PFloat (f : spec_float)
| PStr (s : string)
| PList (l : list pyval)
| PDict (d : list (string * pyval)).
#[local] Set Elimination Schemes.

(** A rental record is the content of a JSON object. *)
Definition record : Type := Dict.dict pyval.

(** The [ValueError]s of the program: three from [strptime], one from
    [math.sqrt], one from [json.load]. *)
Inductive value_error : Type :=
| NoMatch (data : string)          (* time data ... does not match format *)
| UnconvertedData (rest : string)  (* unconverted data remains *)
| DayOutOfRange                    (* day is out of range for month *)
| MathDomainError                  (* math domain error *)
| JSONDecodeError.                 (* json.JSONDecodeError, a ValueError *)

Inductive exn : Type :=
| KeyError (k : string)
| TypeError
| ValueError (why : value_error)
| AssertionError (msg : string)
| ZeroDivisionError
| OverflowError
| FileNotFoundError (path : string)
| OSError (path : string)
| SystemExit (code : Z).

Inductive res (A : Type) : Type :=
| Ok (a : A)
| Raise (e : exn).
Arguments Ok {A} a.
Arguments Raise {A} e.

Inductive loglevel : Type := DEBUG | WARNING | ERROR.

Inductive log_arg : Type :=
| ArgStr (s : string)
| ArgRecord (r : record)
| ArgExn (e : exn).

Record log_entry : Type := mk_log
  { lvl : loglevel; fmt : string; args : list log_arg }.

(** ** The monad of the embedding: an outcome and the log written so far *)

Definition M (A : Type) : Type := (res A * list log_entry)%type.

Definition ret {A} (a : A) : M A := (Ok a, []).
Definition raise {A} (e : exn) : M A := (Raise e, []).
Definition lift {A} (r : res A) : M A := (r, []).

Definition bind {A B} (m : M A) (f : A -> M B) : M B :=
  match m with
  | (Ok a, l) => let '(r, l') := f a in (r, l ++ l')
  | (Raise e, l) => (Raise e, l)
  end.

Notation "x <- m ;; k" := (bind m (fun x => k))
  (at level 61, m at next level, right associativity).
Notation "m ;;; k" := (bind m (fun _ => k))
  (at level 61, right associativity).

(** [try: body except <the exceptions h accepts>: h e]. *)
Definition try_except {A} (body : M A) (h : exn -> option (M A)) : M A :=
  match body with
  | (Ok a, l) => (Ok a, l)
  | (Raise e, l) =>
      match h e with
      | Some m => let '(r, l') := m in (r, l ++ l')
      | None => (Raise e, l)
      end
  end.

Module LOGGER.
Definition debug (f : string) (a : list log_arg) : M unit :=
  (Ok tt, [mk_log DEBUG f a]).
Definition warning (f : string) (a : list log_arg) : M unit :=
  (Ok tt, [mk_log WARNING f a]).
Definition error (f : string) (a : list log_arg) : M unit :=
  (Ok tt, [mk_log ERROR f a]).
End LOGGER.

(** [exit(0)] raises [SystemExit(0)]. *)
Definition exit {A} (code : Z) : M A := raise (SystemExit code).

(** [value[k]]. *)
Definition getitem (value : record) (k : string) : M pyval :=
  match Dict.get k value with
  | Some v => ret v
  | None => raise (KeyError k)
  end.

(** [assert c, msg], as run without [-O]. *)
Definition assert (c : bool) (msg : string) : M unit :=
  if c then ret tt else raise (AssertionError msg).

(** ** Numbers *)

Definition prec : Z := 53.
Definition emax : Z := 1024.
Definition fzero : spec_float := S754_zero false.

Definition is_nan (f : spec_float) : bool :=
  match f with S754_nan => true | _ => false end.

Definition b2z (b : bool) : Z := if b then 1 else 0.

(** [bool] is a subclass of [int]. *)
Definition as_int (v : pyval) : option Z :=
  match v with
  | PBool b => Some (b2z b)
  | PInt z => Some z
  | _ => None
  end.

(** Truth value of an object. *)
Definition truthy (v : pyval) : bool :=
  match v with
  | PNone => false
  | PBool b => b
  | PInt z => negb (z =? 0)
  | PFloat f => negb (SFeqb f fzero)
  | PStr s => negb (String.eqb s "")
  | PList l => match l with [] => false | _ => true end
  | PDict d => match d with [] => false | _ => true end
  end.

(** [v >= 0]; a number is compared by value (NaN compares false), any
    other object raises [TypeError]. *)
Definition ge0 (v : pyval) : res bool :=
  match v with
  | PBool b => Ok true
  | PInt z => Ok (0 <=? z)
  | PFloat f => Ok (SFleb fzero f)
  | _ => Raise TypeError
  end.

(** Conversion of an [int] to a [float]: round to nearest even,
    [OverflowError] beyond the largest finite float. *)
Definition int_to_float (z : Z) : res spec_float :=
  match binary_normalize prec emax z 0 false with
  | S754_infinity _ => Raise OverflowError
  | f => Ok f
  end.

(** [a / b] on two floats. *)
Definition float_div (a b : spec_float) : res spec_float :=
  if SFeqb b fzero then Raise ZeroDivisionError
  else Ok (SFdiv prec emax a b).

(** [a / b] on two ints: the correctly rounded quotient. *)
Definition int_truediv (a b : Z) : res spec_float :=
  if b =? 0 then Raise ZeroDivisionError
  else if a =? 0 then Ok (S754_zero (b <? 0))
  else
    let '(q, e, l) := SFdiv_core_binary prec emax (Z.abs a) 0 (Z.abs b) 0 in
    match binary_round_aux prec emax (xorb (a <? 0) (b <? 0)) q e l with
    | S754_infinity _ => Raise OverflowError
    | f => Ok f
    end.

Definition res_bind {A B} (r : res A) (f : A -> res B) : res B :=
  match r with Ok a => f a | Raise e => Raise e end.

Fixpoint repeat_str (s : string) (n : nat) : string :=
  match n with O => "" | S n' => String.append s (repeat_str s n') end.

Fixpoint repeat_list {A} (l : list A) (n : nat) : list A :=
  match n with O => [] | S n' => l ++ repeat_list l n' end.

(** [x * y]. *)
Definition py_mul (x y : pyval) : res pyval :=
  match as_int x, as_int y with
  | Some a, Some b => Ok (PInt (a * b))
  | Some a, None =>
      match y with
      | PFloat g => res_bind (int_to_float a) (fun f => Ok (PFloat (SFmul prec emax f g)))
      | PStr s => Ok (PStr (repeat_str s (Z.to_nat a)))
      | PList l => Ok (PList (repeat_list l (Z.to_nat a)))
      | _ => Raise TypeError
      end
  | None, Some b =>
      match x with
      | PFloat f => res_bind (int_to_float b) (fun g => Ok (PFloat (SFmul prec emax f g)))
      | PStr s => Ok (PStr (repeat_str s (Z.to_nat b)))
      | PList l => Ok (PList (repeat_list l (Z.to_nat b)))
      | _ => Raise TypeError
      end
  | None, None =>
      match x, y with
      | PFloat f, PFloat g => Ok (PFloat (SFmul prec emax f g))
      | _, _ => Raise TypeError
      end
  end.

(** [x / y]. *)
Definition py_truediv (x y : pyval) : res pyval :=
  match as_int x, as_int y with
  | Some a, Some b => res_bind (int_truediv a b) (fun q => Ok (PFloat q))
  | Some a, None =>
      match y with
      | PFloat g =>
          res_bind (int_to_float a) (fun f =>
          res_bind (float_div f g) (fun q => Ok (PFloat q)))
      | _ => Raise TypeError
      end
  | None, Some b =>
      match x with
      | PFloat f =>
          res_bind (int_to_float b) (fun g =>
          res_bind (float_div f g) (fun q => Ok (PFloat q)))
      | _ => Raise TypeError
      end
  | None, None =>
      match x, y with
      | PFloat f, PFloat g => res_bind (float_div f g) (fun q => Ok (PFloat q))
      | _, _ => Raise TypeError
      end
  end.

(** [math.sqrt] on a float: the result is NaN for an argument that is not,
    exactly when the argument is below zero, and that is the domain error. *)
Definition float_sqrt (x : spec_float) : res spec_float :=
  let r := SFsqrt prec emax x in
  if is_nan r && negb (is_nan x) then Raise (ValueError MathDomainError)
  else Ok r.

Definition math_sqrt (v : pyval) : res pyval :=
  match v with
  | PFloat f => res_bind (float_sqrt f) (fun r => Ok (PFloat r))
  | _ =>
      match as_int v with
      | Some z =>
          res_bind (int_to_float z) (fun f =>
          res_bind (float_sqrt f) (fun r => Ok (PFloat r)))
      | None => Raise TypeError
      end
  end.

(** ** [datetime]: the part reached through ['%m/%d/%y'] *)

(** A [datetime] built by ['%m/%d/%y'] has its time of day at midnight, so
    only the date fields are kept. *)
Record datetime : Type := mk_datetime
  { year : Z; month : Z; day : Z }.

Definition _is_leap (y : Z) : bool :=
  (y mod 4 =? 0) && (negb (y mod 100 =? 0) || (y mod 400 =? 0)).

Definition _days_before_year (y : Z) : Z :=
  let y := y - 1 in y * 365 + y / 4 - y / 100 + y / 400.

Definition _DAYS_IN_MONTH (m : Z) : Z :=
  match m with
  | 1 => 31 | 2 => 28 | 3 => 31 | 4 => 30 | 5 => 31 | 6 => 30
  | 7 => 31 | 8 => 31 | 9 => 30 | 10 => 31 | 11 => 30 | 12 => 31
  | _ => -1
  end.

Definition _DAYS_BEFORE_MONTH (m : Z) : Z :=
  match m with
  | 1 => 0 | 2 => 31 | 3 => 59 | 4 => 90 | 5 => 120 | 6 => 151
  | 7 => 181 | 8 => 212 | 9 => 243 | 10 => 273 | 11 => 304 | 12 => 334
  | _ => -1
  end.

Definition _days_in_month (y m : Z) : Z :=
  if (m =? 2) && _is_leap y then 29 else _DAYS_IN_MONTH m.

Definition _days_before_month (y m : Z) : Z :=
  _DAYS_BEFORE_MONTH m + (if (2 <? m) && _is_leap y then 1 else 0).

Definition _ymd2ord (y m d : Z) : Z :=
  _days_before_year y + _days_before_month y m + d.

Definition toordinal (t : datetime) : Z :=
  _ymd2ord (year t) (month t) (day t).

(** [a <= b] compares the fields in order. *)
Definition datetime_le (a b : datetime) : bool :=
  (year a <? year b)
  || ((year a =? year b)
      && ((month a <? month b)
          || ((month a =? month b) && (day a <=? day b)))).

(** [(a - b).days]. *)
Definition sub_days (a b : datetime) : Z := toordinal a - toordinal b.

(** The dates the constructor accepts. *)
Definition valid_date (t : datetime) : bool :=
  (1 <=? year t) && (year t <=? 9999)
  && (1 <=? month t) && (month t <=? 12)
  && (1 <=? day t) && (day t <=? _days_in_month (year t) (month t)).

(** *** The regular expression of ['%m/%d/%y']

    [(1[0-2]|0[1-9]|[1-9])/(3[01]|[12]\d|0[1-9]|[1-9]| [1-9])/(\d\d)],
    matched at the start of the string.  A group is the list of its ways
    to match a prefix, in the order the alternatives are tried; each way is
    the number read and the rest of the string. *)

Definition digit (c : ascii) : option Z :=
  let n := Z.of_N (N_of_ascii c) in
  if (48 <=? n) && (n <=? 57) then Some (n - 48) else None.

Definition alt2 (ok : Z -> Z -> bool) (s : string) : list (Z * string) :=
  match s with
  | String c1 (String c2 rest) =>
      match digit c1, digit c2 with
      | Some a, Some b => if ok a b then [(10 * a + b, rest)] else []
      | _, _ => []
      end
  | _ => []
  end.

Definition alt1 (ok : Z -> bool) (s : string) : list (Z * string) :=
  match s with
  | String c rest =>
      match digit c with
      | Some a => if ok a then [(a, rest)] else []
      | None => []
      end
  | _ => []
  end.

Definition lit (c : ascii) (s : string) : list string :=
  match s with
  | String c' rest => if Ascii.eqb c c' then [rest] else []
  | _ => []
  end.

Definition re_m (s : string) : list (Z * string) :=
  alt2 (fun a b => (a =? 1) && (b <=? 2)) s
  ++ alt2 (fun a b => (a =? 0) && (1 <=? b)) s
  ++ alt1 (fun a => 1 <=? a) s.

Definition re_d (s : string) : list (Z * string) :=
  alt2 (fun a b => (a =? 3) && (b <=? 1)) s
  ++ alt2 (fun a b => (1 <=? a) && (a <=? 2)) s
  ++ alt2 (fun a b => (a =? 0) && (1 <=? b)) s
  ++ alt1 (fun a => 1 <=? a) s
  ++ flat_map (alt1 (fun a => 1 <=? a)) (lit " " s).

Definition re_y (s : string) : list (Z * string) :=
  alt2 (fun _ _ => true) s.

(** All matches of the whole expression, the preferred one first. *)
Definition re_mdy (s : string) : list (Z * Z * Z * string) :=
  flat_map (fun '(m, s1) =>
    flat_map (fun s2 =>
      flat_map (fun '(d, s3) =>
        flat_map (fun s4 =>
          map (fun '(y, s5) => (m, d, y, s5)) (re_y s4))
        (lit "/" s3))
      (re_d s2))
    (lit "/" s1))
  (re_m s).

(** [datetime.datetime.strptime(s, '%m/%d/%y')]. *)
Definition strptime (s : string) : res datetime :=
  match re_mdy s with
  | [] => Raise (ValueError (NoMatch s))
  | (m, d, y, rest) :: _ =>
      if negb (String.eqb rest "") then Raise (ValueError (UnconvertedData rest))
      else
        let t := mk_datetime (if y <=? 68 then y + 2000 else y + 1900) m d in
        if valid_date t then Ok t else Raise (ValueError DayOutOfRange)
  end.

(** [strptime] applied to an object: anything but a [str] is a [TypeError]. *)
Definition strptime_obj (v : pyval) : res datetime :=
  match v with
  | PStr s => strptime s
  | _ => Raise TypeError
  end.

(** ** The program *)

Definition nl : string := String (ascii_of_nat 10) "".

(** Lines 119-143. *)
Definition check_value_set (value : record) : M bool :=
  try_except
    (LOGGER.debug "Checking price_per_day value" [] ;;;
     v <- getitem value "price_per_day" ;;
     assert (truthy v) "missing price_per_day" ;;;
     v <- getitem value "price_per_day" ;;
     c <- lift (ge0 v) ;;
     assert c "invalid price_per_day" ;;;
     LOGGER.debug "Checking product_code value" [] ;;;
     v <- getitem value "product_code" ;;
     assert (truthy v) "missing product code" ;;;
     LOGGER.debug "Making sure rental date values are present" [] ;;;
     v <- getitem value "rental_start" ;;
     assert (truthy v) "missing rental_start value" ;;;
     v <- getitem value "rental_end" ;;
     assert (truthy v) "missing rental_end value" ;;;
     LOGGER.debug "Checking rental date values make sense" [] ;;;
     v <- getitem value "rental_start" ;;
     start <- lift (strptime_obj v) ;;
     v <- getitem value "rental_end" ;;
     end_ <- lift (strptime_obj v) ;;
     assert (datetime_le start end_) "invalid rental dates" ;;;
     LOGGER.debug "Checking units_rented value" [] ;;;
     v <- getitem value "units_rented" ;;
     assert (truthy v) "missing units_rented value" ;;;
     v <- getitem value "units_rented" ;;
     c <- lift (ge0 v) ;;
     assert c "invalid units_rented value" ;;;
     ret true)
    (fun e =>
       match e with
       | AssertionError ae =>
           Some (LOGGER.warning (String.append "Data validation failed: " ae) [] ;;;
                 ret false)
       | _ => None
       end).

(** Lines 92-105: the derived fields, written into the record in place.
    The record is the object [json.load] built for this key alone, so the
    writes are seen by this turn of the loop only. *)
Definition enrich (value : record) : M record :=
  v <- getitem value "rental_start" ;;
  rental_start <- lift (strptime_obj v) ;;
  v <- getitem value "rental_end" ;;
  rental_end <- lift (strptime_obj v) ;;
  let value := Dict.set "total_days" (PInt (sub_days rental_end rental_start)) value in
  a <- getitem value "total_days" ;;
  b <- getitem value "price_per_day" ;;
  p <- lift (py_mul a b) ;;
  let value := Dict.set "total_price" p value in
  a <- getitem value "total_price" ;;
  r <- lift (math_sqrt a) ;;
  let value := Dict.set "sqrt_total_price" r value in
  a <- getitem value "total_price" ;;
  b <- getitem value "units_rented" ;;
  q <- lift (py_truediv a b) ;;
  let value := Dict.set "unit_cost" q value in
  ret value.

(** Lines 65-114: one turn of the loop, from the set collected so far. *)
Definition process_item (key : string) (value : record)
    (cleaned_data : Dict.dict record) : M (Dict.dict record) :=
  try_except
    (ok <- check_value_set value ;;
     if ok then
       value <- enrich value ;;
       let cleaned_data := Dict.set key value cleaned_data in
       LOGGER.debug (String.append "Added validated item to scrubbed dataset:"
                       (String.append nl "%s")) [ArgRecord value] ;;;
       ret cleaned_data
     else
       LOGGER.debug (String.append "Skipping item due to invalid data issues:"
                       (String.append nl "%s")) [ArgRecord value] ;;;
       ret cleaned_data)
    (fun e =>
       match e with
       | ValueError _ => Some (LOGGER.error "%s" [ArgExn e] ;;; exit 0)
       | _ => None
       end).

Fixpoint items_loop (items : list (string * record))
    (cleaned_data : Dict.dict record) : M (Dict.dict record) :=
  match items with
  | [] => ret cleaned_data
  | (key, value) :: rest =>
      cleaned_data <- process_item key value cleaned_data ;;
      items_loop rest cleaned_data
  end.

(** Lines 60-116. *)
Definition calculate_additional_fields (data : Dict.dict record)
    : M (Dict.dict record) :=
  items_loop data [].

(** ** Files *)

(** The file system: the content of each existing path. *)
Definition filesystem : Type := Dict.dict string.

(** A computation that may also read and write files. *)
Definition IO (A : Type) : Type := filesystem -> M A * filesystem.

Definition io_lift {A} (m : M A) : IO A := fun fs => (m, fs).

Definition io_bind {A B} (m : IO A) (f : A -> IO B) : IO B :=
  fun fs =>
    match m fs with
    | ((Ok a, l), fs1) =>
        let '((r, l'), fs2) := f a fs1 in ((r, l ++ l'), fs2)
    | ((Raise e, l), fs1) => ((Raise e, l), fs1)
    end.

Section Adapters.

(** [json.loads] restricted to documents that are an object of objects;
    [None] is a document [json] rejects. *)
Variable json_loads : string -> option (Dict.dict record).

(** [json.dumps(data, indent=n)]. *)
Variable json_dumps : Dict.dict record -> Z -> string.

(** The paths [open(path, 'w')] can create or truncate. *)
Variable writable : string -> bool.

(** [open(filename)]: the content of the file. *)
Definition open_r (filename : string) : IO string :=
  fun fs =>
    match Dict.get filename fs with
    | Some content => (ret content, fs)
    | None => (raise (FileNotFoundError filename), fs)
    end.

Definition json_load (file : string) : M (Dict.dict record) :=
  match json_loads file with
  | Some data => ret data
  | None => raise (ValueError JSONDecodeError)
  end.

(** Lines 49-57: [open] is entered before the [try]. *)
Definition load_rentals_file (filename : string) : IO (Dict.dict record) :=
  io_bind (open_r filename) (fun file =>
  io_lift
    (try_except (json_load file)
       (fun e =>
          match e with
          | FileNotFoundError _ =>
              Some (LOGGER.error "Missing file %s" [ArgStr filename] ;;; exit 0)
          | _ => None
          end))).

(** [open(filename, 'w')] followed by one [json.dump] into it. *)
Definition write_file (filename content : string) : IO unit :=
  fun fs =>
    if writable filename then (ret tt, Dict.set filename content fs)
    else (raise (OSError filename), fs).

(** Lines 146-154. *)
Definition save_to_json (filename : string) (data : Dict.dict record)
    : IO unit :=
  match data with
  | _ :: _ =>
      io_bind (io_lift (LOGGER.debug "Saving file %s" [ArgStr filename]))
        (fun _ => write_file filename (json_dumps data 2))
  | [] =>
      io_lift (LOGGER.warning "Data is invalid. Skipping file writing" [])
  end.

(** Lines 157-161, from the parsed arguments.  The files threaded here
    are those other than the log file, which [program] adds. *)
Definition main (input output : string) : IO unit :=
  io_bind (load_rentals_file input) (fun DATA =>
  io_bind (io_lift (calculate_additional_fields DATA)) (fun DATA =>
  save_to_json output DATA)).

End Adapters.

(** ** Notions used in the statements *)

(** A float that is not NaN and carries the sign [s]. *)
Definition signed (s : bool) (f : spec_float) : Prop :=
  match f with
  | S754_zero s' | S754_infinity s' | S754_finite s' _ _ => s' = s
  | S754_nan => False
  end.

Definition nonzero (f : spec_float) : Prop :=
  match f with
  | S754_zero _ => False
  | _ => True
  end.

(** The four derived values, from the four fields [enrich] reads:
    [(total_days, total_price, sqrt_total_price, unit_cost)]. *)
Definition derive (rental_start rental_end price_per_day units_rented : pyval)
    : res (pyval * pyval * pyval * pyval) :=
  res_bind (strptime_obj rental_start) (fun ts =>
  res_bind (strptime_obj rental_end) (fun te =>
  let d := PInt (sub_days te ts) in
  res_bind (py_mul d price_per_day) (fun p =>
  res_bind (math_sqrt p) (fun r =>
  res_bind (py_truediv p units_rented) (fun q =>
  Ok (d, p, r, q)))))).

(** The record after the four assignments of lines 100-105. *)
Definition with_derived (value : record) (x : pyval * pyval * pyval * pyval)
    : record :=
  let '(d, p, r, q) := x in
  Dict.set "unit_cost" q
    (Dict.set "sqrt_total_price" r
       (Dict.set "total_price" p
          (Dict.set "total_days" d value))).

(** The log of a validation that reaches [return True]. *)
Definition accept_log : list log_entry :=
  [ mk_log DEBUG "Checking price_per_day value" [];
    mk_log DEBUG "Checking product_code value" [];
    mk_log DEBUG "Making sure rental date values are present" [];
    mk_log DEBUG "Checking rental date values make sense" [];
    mk_log DEBUG "Checking units_rented value" [] ].

(** What a record that reaches [return True] holds. *)
Record accepted (value : record) : Prop := mk_accepted
  { acc_price : exists p, Dict.get "price_per_day" value = Some p
                          /\ truthy p = true /\ ge0 p = Ok true;
    acc_code : exists c, Dict.get "product_code" value = Some c
                         /\ truthy c = true;
    acc_dates : exists s e ts te,
        Dict.get "rental_start" value = Some (PStr s)
        /\ Dict.get "rental_end" value = Some (PStr e)
        /\ strptime s = Ok ts /\ strptime e = Ok te
        /\ datetime_le ts te = true;
    acc_units : exists u, Dict.get "units_rented" value = Some u
                          /\ truthy u = true /\ ge0 u = Ok true }.

(** A number that passed both of its checks. *)
Definition positive_number (v : pyval) : Prop :=
  match v with
  | PBool b => b = true
  | PInt z => 0 < z
  | PFloat f => signed false f /\ nonzero f
  | _ => False
  end.

(** A number that is not below zero: an [int] from zero up, or a float
    that is NaN or carries no minus sign. *)
Definition nonneg_number (v : pyval) : Prop :=
  match v with
  | PInt z => 0 <= z
  | PFloat f => signed false f \/ is_nan f = true
  | _ => False
  end.

(** A month of the year and a day of that month. *)
Definition calendar (t : datetime) : Prop :=
  1 <= month t <= 12 /\ 1 <= day t <= _days_in_month (year t) (month t).

(** The calendar day after [t]. *)
Definition next_day (t : datetime) : datetime :=
  if day t <? _days_in_month (year t) (month t)
  then mk_datetime (year t) (month t) (day t + 1)
  else if month t <? 12
       then mk_datetime (year t) (month t + 1) 1
       else mk_datetime (year t + 1) 1 1.

Fixpoint days_later (n : nat) (t : datetime) : datetime :=
  match n with
  | O => t
  | S n' => next_day (days_later n' t)
  end.

(** [f * 2^k] for a finite [f], when that is an integer. *)
Definition scaled (f : spec_float) (k : Z) : option Z :=
  match f with
  | S754_zero _ => Some 0
  | S754_finite s m e =>
      if 0 <=? e + k
      then Some ((if s then -1 else 1) * Zpos m * 2 ^ (e + k))
      else None
  | _ => None
  end.

(** [a] is [b] with some elements left out, the others in place. *)
Fixpoint subseq (a b : list string) : bool :=
  match a, b with
  | [], _ => true
  | _ :: _, [] => false
  | x :: a', y :: b' =>
      if String.eqb x y then subseq a' b' else subseq a b'
  end.

(** *** The validator as the specification words it

    Nine checks in a fixed order.  A check holds, fails, or lets a date
    parse error escape; it meets a wrong kind when the field it reads is
    not what it is worded for (a price that is not a number, a date that
    is not a string); and it says nothing of a field that is absent. *)

Inductive finding : Type :=
| Holds
| Fails
| Escapes (w : value_error)
| WrongKind
| Absent.

Definition present_and_truthy (k : string) (r : record) : finding :=
  match Dict.get k r with
  | Some v => if truthy v then Holds else Fails
  | None => Absent
  end.

Definition non_negative (k : string) (r : record) : finding :=
  match Dict.get k r with
  | Some v =>
      match ge0 v with
      | Ok true => Holds
      | Ok false => Fails
      | Raise _ => WrongKind
      end
  | None => Absent
  end.

Definition parse_finding (v : pyval) (k : datetime -> finding) : finding :=
  match v with
  | PStr s =>
      match strptime s with
      | Ok t => k t
      | Raise (ValueError w) => Escapes w
      | Raise _ => WrongKind
      end
  | _ => WrongKind
  end.

Definition dates_parse (r : record) : finding :=
  match Dict.get "rental_start" r, Dict.get "rental_end" r with
  | Some vs, Some ve =>
      parse_finding vs (fun _ => parse_finding ve (fun _ => Holds))
  | _, _ => Absent
  end.

Definition start_not_after_end (r : record) : finding :=
  match Dict.get "rental_start" r, Dict.get "rental_end" r with
  | Some vs, Some ve =>
      parse_finding vs (fun ts => parse_finding ve (fun te =>
        if datetime_le ts te then Holds else Fails))
  | _, _ => Absent
  end.

(** The checks in their order, each with the condition its warning names. *)
Definition checks : list ((record -> finding) * string) :=
  [ (present_and_truthy "price_per_day", "missing price_per_day");
    (non_negative "price_per_day", "invalid price_per_day");
    (present_and_truthy "product_code", "missing product code");
    (present_and_truthy "rental_start", "missing rental_start value");
    (present_and_truthy "rental_end", "missing rental_end value");
    (dates_parse, "");
    (start_not_after_end, "invalid rental dates");
    (present_and_truthy "units_rented", "missing units_rented value");
    (non_negative "units_rented", "invalid units_rented value") ].

Inductive decision : Type :=
| Accept
| Reject (n : nat) (condition : string)
| Abort (n : nat) (w : value_error)
| Fault (n : nat).

(** The first check, counted from [n], that does not hold decides; the
    checks after it are not consulted. *)
Fixpoint first_failure (n : nat) (cs : list ((record -> finding) * string))
    (r : record) : option decision :=
  match cs with
  | [] => Some Accept
  | (c, condition) :: cs' =>
      match c r with
      | Holds => first_failure (S n) cs' r
      | Fails => Some (Reject n condition)
      | Escapes w => Some (Abort n w)
      | WrongKind => Some (Fault n)
      | Absent => None
      end
  end.

Definition spec_validate (r : record) : option decision :=
  first_failure 1 checks r.

(** The debug lines written by the time check [n] is evaluated. *)
Definition debug_before (n : nat) : list log_entry :=
  firstn (match n with
          | 0 => 0 | 1 | 2 => 1 | 3 => 2 | 4 | 5 => 3 | 6 | 7 => 4 | _ => 5
          end)%nat accept_log.

(** What the validator does on each decision. *)
Definition outcome (d : decision) : M bool :=
  match d with
  | Accept => (Ok true, accept_log)
  | Reject n condition =>
      (Ok false,
       debug_before n
       ++ [mk_log WARNING (String.append "Data validation failed: " condition) []])
  | Abort n w => (Raise (ValueError w), debug_before n)
  | Fault n => (Raise TypeError, debug_before n)
  end.

(** A record that passes checks 1 to 5 with both dates strings. *)
Record reaches_parse (value : record) (s e : string) : Prop := mk_reaches
  { rp_price : exists p, Dict.get "price_per_day" value = Some p
                         /\ truthy p = true /\ ge0 p = Ok true;
    rp_code : exists c, Dict.get "product_code" value = Some c
                        /\ truthy c = true;
    rp_start : Dict.get "rental_start" value = Some (PStr s) /\ s <> "";
    rp_end : Dict.get "rental_end" value = Some (PStr e) /\ e <> "" }.

(** The first date of the two, in the order the validator parses them, that
    does not parse. *)
Definition first_parse_error (s e : string) : option value_error :=
  match strptime s with
  | Raise (ValueError w) => Some w
  | Raise _ => None
  | Ok _ =>
      match strptime e with
      | Raise (ValueError w) => Some w
      | _ => None
      end
  end.

(** *** Records of the examples *)

Definition rental (code : string) (price units : pyval) (s e : string)
    : record :=
  [ ("product_code", PStr code); ("price_per_day", price);
    ("units_rented", units); ("rental_start", PStr s);
    ("rental_end", PStr e) ].

(** Example 1 of the specification. *)
Definition rental_A : record :=
  rental "X" (PInt 10) (PInt 2) "01/01/20" "01/03/20".

(** Example 2: [units_rented] is not a key of the record. *)
Definition rental_no_units : record :=
  [ ("product_code", PStr "X"); ("price_per_day", PInt 10);
    ("rental_start", PStr "01/01/20"); ("rental_end", PStr "01/03/20") ].

(** Example 3: the start is after the end. *)
Definition rental_backward : record :=
  rental "X" (PInt 10) (PInt 2) "01/03/20" "01/01/20".

(** Example 4: a date in another format. *)
Definition rental_iso_date : record :=
  rental "X" (PInt 10) (PInt 2) "2020-01-01" "01/03/20".

(** The same date, in a record whose price is zero. *)
Definition rental_iso_date_free : record :=
  rental "X" (PInt 0) (PInt 2) "2020-01-01" "01/03/20".

(** A price that is a string. *)
Definition rental_price_str : record :=
  rental "X" (PStr "10") (PInt 2) "01/01/20" "01/03/20".


(** The float nearest to the square root of 20, and the float 10. *)
Definition sqrt_20 : spec_float := S754_finite false 5035177455121576 (-50).
Definition float_10 : spec_float := S754_finite false 5629499534213120 (-49).

(** A batch of three, the second with its dates backward. *)
Definition three_rentals : Dict.dict record :=
  [("A", rental_A); ("B", rental_backward); ("C", rental_A)].

(** The value a computation returns, [default] when it raises. *)
Definition returned {A} (m : M A) (default : A) : A :=
  match fst m with
  | Ok a => a
  | Raise _ => default
  end.

Definition base_keys : list string :=
  ["rental_start"; "rental_end"; "price_per_day"; "units_rented"].

Definition derived_keys : list string :=
  ["total_days"; "total_price"; "sqrt_total_price"; "unit_cost"].

(** Stand-ins for the [json] module, for running the adapters. *)
Definition one_json_loads (data : Dict.dict record) (_ : string)
    : option (Dict.dict record) := Some data.
Definition flat_json_dumps (_ : Dict.dict record) (_ : Z) : string := "{}".
Definition any_path (_ : string) : bool := true.

(** *** Handlers (lines 12-26)

    The root logger is set to [DEBUG] and passes every record on; a
    handler emits the records at or above its own level. *)

Definition levelno (l : loglevel) : Z :=
  match l with
  | DEBUG => 10
  | WARNING => 30
  | ERROR => 40
  end.

Definition emits (level : loglevel) (log : list log_entry) : list log_entry :=
  filter (fun en => levelno level <=? levelno (lvl en)) log.

Definition FILE_HANDLER (log : list log_entry) : list log_entry :=
  emits DEBUG log.

Definition CONSOLE_HANDLER (log : list log_entry) : list log_entry :=
  emits WARNING log.

(** *** The batch, record by record *)

(** The five fields the validator reads. *)
Definition field_keys : list string :=
  ["price_per_day"; "product_code"; "rental_start"; "rental_end";
   "units_rented"].

(** What one item contributes to the output: its enrichment under its
    key when the validator accepts it, nothing otherwise. *)
Definition kept (item : string * record) : list (string * record) :=
  match check_value_set (snd item) with
  | (Ok true, _) =>
      match enrich (snd item) with
      | (Ok value', _) => [(fst item, value')]
      | _ => []
      end
  | _ => []
  end.

(** The exceptions that leave the batch, besides [SystemExit]. *)
Definition uncaught (e : exn) : Prop :=
  match e with
  | KeyError k => In k field_keys
  | TypeError | OverflowError => True
  | _ => False
  end.

(** The first and the last day ['%y'] can denote. *)
Definition first_day : datetime := mk_datetime 1969 1 1.
Definition last_day : datetime := mk_datetime 2068 12 31.

(** *** Turns of the loop *)

(** The lines one turn of the loop can log. *)
Definition added_line (value' : record) : log_entry :=
  mk_log DEBUG
    (String.append "Added validated item to scrubbed dataset:"
       (String.append nl "%s")) [ArgRecord value'].

Definition skipped_line (value : record) : log_entry :=
  mk_log DEBUG
    (String.append "Skipping item due to invalid data issues:"
       (String.append nl "%s")) [ArgRecord value].

Definition warning_line (condition : string) : log_entry :=
  mk_log WARNING (String.append "Data validation failed: " condition) [].

Definition error_line (w : value_error) : log_entry :=
  mk_log ERROR "%s" [ArgExn (ValueError w)].

(** The outcomes of one turn of the loop. *)
Inductive turn (key : string) (value : record) (cleaned : Dict.dict record)
    : M (Dict.dict record) -> Prop :=
| turn_added value' :
    accepted value -> enrich value = (Ok value', []) ->
    turn key value cleaned
      (Ok (Dict.set key value' cleaned), accept_log ++ [added_line value'])
| turn_overflow :
    accepted value -> enrich value = (Raise OverflowError, []) ->
    turn key value cleaned (Raise OverflowError, accept_log)
| turn_skipped n condition :
    check_value_set value = outcome (Reject n condition) ->
    turn key value cleaned
      (Ok cleaned, debug_before n ++ [warning_line condition; skipped_line value])
| turn_exit n w :
    check_value_set value = outcome (Abort n w) ->
    turn key value cleaned
      (Raise (SystemExit 0), debug_before n ++ [error_line w])
| turn_type_error n :
    check_value_set value = outcome (Fault n) ->
    turn key value cleaned (Raise TypeError, debug_before n)
| turn_key_error k n :
    In k field_keys ->
    check_value_set value = (Raise (KeyError k), debug_before n) ->
    turn key value cleaned (Raise (KeyError k), debug_before n).

(** A number below zero, or no number at all. *)
Definition negative_number (v : pyval) : Prop :=
  match v with
  | PInt z => z < 0
  | PFloat f => (signed true f /\ nonzero f) \/ is_nan f = true
  | _ => False
  end.

(** Lines 101-105: the three fields computed once [total_days] is in the
    record. *)
Definition enrich_prices (value : record) : M record :=
  a <- getitem value "total_days" ;;
  b <- getitem value "price_per_day" ;;
  p <- lift (py_mul a b) ;;
  let value := Dict.set "total_price" p value in
  a <- getitem value "total_price" ;;
  r <- lift (math_sqrt a) ;;
  let value := Dict.set "sqrt_total_price" r value in
  a <- getitem value "total_price" ;;
  b <- getitem value "units_rented" ;;
  q <- lift (py_truediv a b) ;;
  let value := Dict.set "unit_cost" q value in
  ret value.

(** *** The program with its log file (lines 12-26 and 157-161)

    [FILE_HANDLER] opens [LOG_FILE] with mode ['w'] when the module is
    loaded, which creates or empties it, and writes each line to it as it
    is logged.  [main] threads the files without that one; [program] is
    [main] with it.  The name of the log file holds the date and the text
    of a line holds the time, so both are parameters. *)

Section Program.

Variable json_loads : string -> option (Dict.dict record).
Variable json_dumps : Dict.dict record -> Z -> string.
Variable writable : string -> bool.

(** [LOG_FILE], line 12. *)
Variable LOG_FILE : string.

(** The text [FORMATTER] gives the lines of a log. *)
Variable render : list log_entry -> string.



End Program.


(** * Properties *)

(** ** The calendar *)

Lemma days_before_year_succ (y : Z) :
  _days_before_year (y + 1) =
  _days_before_year y + (if _is_leap y then 366 else 365).
Proof.
  unfold _days_before_year, _is_leap.
  replace (y + 1 - 1) with y by lia.
  destruct (y mod 4 =? 0) eqn:H4; destruct (y mod 100 =? 0) eqn:H100;
    destruct (y mod 400 =? 0) eqn:H400; cbn [andb orb negb];
    rewrite ?Z.eqb_eq, ?Z.eqb_neq in *;
    Z.to_euclidean_division_equations; lia.
Qed.

Lemma days_before_year_mono (a b : Z) :
  a <= b -> _days_before_year a <= _days_before_year b.
Proof.
  intros Hab.
  replace b with (a + Z.of_nat (Z.to_nat (b - a))) by lia.
  induction (Z.to_nat (b - a)) as [|n IH].
  - rewrite Z.add_0_r. lia.
  - replace (a + Z.of_nat (S n)) with (a + Z.of_nat n + 1) by lia.
    rewrite days_before_year_succ. destruct (_is_leap _); lia.
Qed.

Lemma month_cases (m : Z) :
  1 <= m <= 12 ->
  m = 1 \/ m = 2 \/ m = 3 \/ m = 4 \/ m = 5 \/ m = 6 \/
  m = 7 \/ m = 8 \/ m = 9 \/ m = 10 \/ m = 11 \/ m = 12.
Proof. lia. Qed.

Lemma days_before_month_bounds (y m : Z) :
  1 <= m <= 12 ->
  0 <= _days_before_month y m /\
  _days_before_month y m + _days_in_month y m
    <= (if _is_leap y then 366 else 365).
Proof.
  intros Hm. unfold _days_before_month, _days_in_month.
  destruct (_is_leap y);
    destruct (month_cases m Hm) as [->|[->|[->|[->|[->|[->|[->|[->|[->|[->|[->| ->]]]]]]]]]]];
    cbn; lia.
Qed.

Lemma days_before_month_step (y m m' : Z) :
  1 <= m -> m < m' -> m' <= 12 ->
  _days_before_month y m + _days_in_month y m <= _days_before_month y m'.
Proof.
  intros H1 H2 H3. unfold _days_before_month, _days_in_month.
  assert (Hm : 1 <= m <= 12) by lia. assert (Hm' : 1 <= m' <= 12) by lia.
  destruct (_is_leap y);
    destruct (month_cases m Hm) as [->|[->|[->|[->|[->|[->|[->|[->|[->|[->|[->| ->]]]]]]]]]]];
    destruct (month_cases m' Hm') as [->|[->|[->|[->|[->|[->|[->|[->|[->|[->|[->| ->]]]]]]]]]]];
    cbn; lia.
Qed.

Lemma valid_date_calendar (t : datetime) :
  valid_date t = true -> calendar t.
Proof.
  unfold valid_date, calendar. rewrite !andb_true_iff, !Z.leb_le. lia.
Qed.

Ltac lex_cases H :=
  repeat rewrite ?orb_true_iff, ?andb_true_iff, ?orb_false_iff, ?andb_false_iff in H;
  rewrite ?Z.ltb_lt, ?Z.eqb_eq, ?Z.leb_le, ?Z.ltb_ge, ?Z.eqb_neq, ?Z.leb_gt in H.

(** Later in the order of the fields is later in the count of days. *)
Lemma toordinal_lt (a b : datetime) :
  calendar a -> calendar b ->
  datetime_le b a = false -> toordinal a < toordinal b.
Proof.
  intros Ha Hb Hlt. unfold calendar in *.
  destruct a as [ya ma da], b as [yb mb db]; cbn [year month day] in *.
  unfold toordinal, _ymd2ord; cbn [year month day].
  unfold datetime_le in Hlt; cbn [year month day] in Hlt.
  lex_cases Hlt.
  pose proof (days_before_month_bounds ya ma ltac:(lia)) as [_ Ba].
  pose proof (days_before_month_bounds yb mb ltac:(lia)) as [Bb _].
  assert (Hcase : ya < yb \/ (ya = yb /\ ma < mb) \/ (ya = yb /\ ma = mb /\ da < db))
    by lia.
  destruct Hcase as [Hy | [[-> Hm] | [-> [-> Hd]]]].
  - pose proof (days_before_year_mono (ya + 1) yb ltac:(lia)) as Hmono.
    rewrite days_before_year_succ in Hmono. lia.
  - pose proof (days_before_month_step yb ma mb ltac:(lia) Hm ltac:(lia)). lia.
  - lia.
Qed.

Lemma datetime_le_antisym (a b : datetime) :
  datetime_le a b = true -> datetime_le b a = true -> a = b.
Proof.
  destruct a as [ya ma da], b as [yb mb db].
  unfold datetime_le; cbn [year month day]. intros H1 H2.
  lex_cases H1. lex_cases H2.
  assert (ya = yb /\ ma = mb /\ da = db) as (-> & -> & ->) by lia.
  reflexivity.
Qed.

Lemma toordinal_mono (a b : datetime) :
  calendar a -> calendar b ->
  datetime_le a b = true -> toordinal a <= toordinal b.
Proof.
  intros Ha Hb Hle. destruct (datetime_le b a) eqn:Hba.
  - rewrite (datetime_le_antisym a b Hle Hba). lia.
  - pose proof (toordinal_lt a b Ha Hb Hba). lia.
Qed.

Lemma toordinal_inj (a b : datetime) :
  calendar a -> calendar b -> toordinal a = toordinal b -> a = b.
Proof.
  intros Ha Hb Heq.
  destruct (datetime_le a b) eqn:Hab; destruct (datetime_le b a) eqn:Hba.
  - now apply datetime_le_antisym.
  - pose proof (toordinal_lt a b Ha Hb Hba). lia.
  - pose proof (toordinal_lt b a Hb Ha Hab). lia.
  - pose proof (toordinal_lt b a Hb Ha Hab). lia.
Qed.

Lemma days_before_month_next (y m : Z) :
  1 <= m < 12 ->
  _days_before_month y (m + 1) = _days_before_month y m + _days_in_month y m.
Proof.
  intros Hm. unfold _days_before_month, _days_in_month.
  assert (Hm' : 1 <= m <= 12) by lia.
  destruct (_is_leap y);
    destruct (month_cases m Hm') as [->|[->|[->|[->|[->|[->|[->|[->|[->|[->|[->| ->]]]]]]]]]]];
    cbn; lia.
Qed.

Lemma days_in_month_pos (y m : Z) : 1 <= m <= 12 -> 28 <= _days_in_month y m.
Proof.
  intros Hm. unfold _days_in_month.
  destruct (_is_leap y);
    destruct (month_cases m Hm) as [->|[->|[->|[->|[->|[->|[->|[->|[->|[->|[->| ->]]]]]]]]]]];
    cbn; lia.
Qed.

(** One calendar day is one step of the count. *)
Lemma next_day_spec (t : datetime) :
  calendar t ->
  calendar (next_day t) /\ toordinal (next_day t) = toordinal t + 1.
Proof.
  intros [Hm Hd]. unfold next_day, calendar, toordinal, _ymd2ord.
  destruct (day t <? _days_in_month (year t) (month t)) eqn:E1;
    [apply Z.ltb_lt in E1 | apply Z.ltb_ge in E1]; cbn [year month day].
  - lia.
  - destruct (month t <? 12) eqn:E2;
      [apply Z.ltb_lt in E2 | apply Z.ltb_ge in E2]; cbn [year month day].
    + pose proof (days_in_month_pos (year t) (month t + 1) ltac:(lia)).
      rewrite days_before_month_next by lia. lia.
    + assert (E : month t = 12) by lia. rewrite E in *.
      rewrite days_before_year_succ.
      unfold _days_before_month, _days_in_month in *.
      destruct (_is_leap (year t)); cbn in *; lia.
Qed.

Lemma days_later_spec (n : nat) (t : datetime) :
  calendar t ->
  calendar (days_later n t)
  /\ toordinal (days_later n t) = toordinal t + Z.of_nat n.
Proof.
  intros Ht. induction n as [|n [IH1 IH2]]; cbn [days_later].
  - split; [exact Ht | lia].
  - destruct (next_day_spec _ IH1) as [H1 H2]. split; [exact H1 | lia].
Qed.

(** The difference of the counts is the number of calendar days from the
    earlier date to the later one. *)
Lemma sub_days_exact (a b : datetime) :
  calendar a -> calendar b -> datetime_le a b = true ->
  0 <= sub_days b a /\ days_later (Z.to_nat (sub_days b a)) a = b.
Proof.
  intros Ha Hb Hle. pose proof (toordinal_mono a b Ha Hb Hle) as Hmono.
  unfold sub_days. split; [lia|].
  destruct (days_later_spec (Z.to_nat (toordinal b - toordinal a)) a Ha) as [H1 H2].
  apply toordinal_inj; [exact H1 | exact Hb | lia].
Qed.

(** ** Rounding keeps the sign and never reaches zero from above *)

Lemma shr_1_m (mrs : shr_record) :
  0 <= shr_m mrs -> shr_m (shr_1 mrs) = shr_m mrs / 2.
Proof.
  destruct mrs as [m r s]; cbn [shr_m]; intros Hm.
  rewrite <- Z.div2_div.
  destruct m as [|p|p]; [reflexivity | destruct p; reflexivity | lia].
Qed.

Lemma iter_shr_1_m (p : positive) :
  forall mrs, 0 <= shr_m mrs ->
  shr_m (iter_pos shr_1 p mrs) = shr_m mrs / 2 ^ Zpos p.
Proof.
  induction p as [p IH|p IH|]; intros mrs Hm; cbn [iter_pos].
  - assert (H1 : 0 <= shr_m (shr_1 mrs)).
    { rewrite shr_1_m by assumption. apply Z.div_pos; lia. }
    assert (H2 : 0 <= shr_m (iter_pos shr_1 p (shr_1 mrs))).
    { rewrite IH by assumption. apply Z.div_pos; lia. }
    rewrite IH, IH, shr_1_m by assumption.
    rewrite !Z.div_div by lia.
    apply (f_equal (Z.div (shr_m mrs))).
    rewrite (Pos2Z.inj_xI p).
    replace (2 * Zpos p + 1) with (1 + Zpos p + Zpos p) by lia.
    rewrite !Z.pow_add_r by lia. lia.
  - assert (H2 : 0 <= shr_m (iter_pos shr_1 p mrs)).
    { rewrite IH by assumption. apply Z.div_pos; lia. }
    rewrite IH, IH by assumption.
    rewrite !Z.div_div by lia.
    apply (f_equal (Z.div (shr_m mrs))).
    rewrite (Pos2Z.inj_xO p).
    replace (2 * Zpos p) with (Zpos p + Zpos p) by lia.
    rewrite !Z.pow_add_r by lia. lia.
  - rewrite shr_1_m by assumption. reflexivity.
Qed.

Lemma shr_record_of_loc_m (m : Z) (l : location) :
  shr_m (shr_record_of_loc m l) = m.
Proof. destruct l as [|[]]; reflexivity. Qed.

Lemma digits2_pos_le (p : positive) :
  2 ^ (Zpos (digits2_pos p) - 1) <= Zpos p.
Proof.
  assert (Hstep : forall q, 2 ^ (Zpos (Pos.succ q) - 1) = 2 * 2 ^ (Zpos q - 1)).
  { intros q. rewrite (Pos2Z.inj_succ q).
    replace (Z.succ (Zpos q) - 1) with (1 + (Zpos q - 1)) by lia.
    rewrite Z.pow_add_r by lia. reflexivity. }
  induction p as [p IH|p IH|]; cbn [digits2_pos].
  - rewrite Hstep, (Pos2Z.inj_xI p). lia.
  - rewrite Hstep, (Pos2Z.inj_xO p). lia.
  - cbn. lia.
Qed.

Lemma shr_fexp_nonneg (m e : Z) (l : location) :
  0 <= m -> 0 <= shr_m (fst (shr_fexp prec emax m e l)).
Proof.
  intros Hm. unfold shr_fexp, shr.
  destruct (fexp prec emax (Zdigits2 m + e) - e) as [|n|n]; cbn [fst];
    rewrite ?iter_shr_1_m; rewrite ?shr_record_of_loc_m; try lia.
  apply Z.div_pos; lia.
Qed.

Lemma shr_fexp_pos (m e : Z) (l : location) :
  0 < m -> emin prec emax <= e ->
  0 < shr_m (fst (shr_fexp prec emax m e l))
  /\ emin prec emax <= snd (shr_fexp prec emax m e l).
Proof.
  intros Hm He. unfold shr_fexp, shr.
  destruct (fexp prec emax (Zdigits2 m + e) - e) as [|n|n] eqn:Hn; cbn [fst snd];
    rewrite ?shr_record_of_loc_m; try lia.
  rewrite iter_shr_1_m by (rewrite shr_record_of_loc_m; lia).
  rewrite shr_record_of_loc_m. split; [|lia].
  destruct m as [|p|p]; try lia. cbn [Zdigits2] in Hn.
  unfold fexp in Hn. pose proof (digits2_pos_le p) as Hd.
  assert (Hle : Zpos n <= Zpos (digits2_pos p) - 1) by (unfold prec in *; lia).
  apply Z.div_str_pos. split; [lia|].
  eapply Z.le_trans; [|exact Hd]. apply Z.pow_le_mono_r; lia.
Qed.

Lemma round_nearest_even_ge (m : Z) (l : location) :
  m <= round_nearest_even m l.
Proof.
  unfold round_nearest_even. destruct l as [|[]]; try destruct (Z.even m); lia.
Qed.

Lemma binary_round_aux_signed (s : bool) (m e : Z) (l : location) :
  0 <= m -> signed s (binary_round_aux prec emax s m e l).
Proof.
  intros Hm. unfold binary_round_aux.
  pose proof (shr_fexp_nonneg m e l Hm) as H1.
  destruct (shr_fexp prec emax m e l) as [mrs' e']; cbn [fst] in H1.
  pose proof (round_nearest_even_ge (shr_m mrs') (loc_of_shr_record mrs')) as H2.
  pose proof (shr_fexp_nonneg (round_nearest_even (shr_m mrs') (loc_of_shr_record mrs'))
                e' loc_Exact ltac:(lia)) as H3.
  destruct (shr_fexp prec emax _ e' loc_Exact) as [mrs'' e'']; cbn [fst] in H3.
  destruct (shr_m mrs'') as [|p|p]; [reflexivity | | lia].
  destruct (e'' <=? emax - prec); reflexivity.
Qed.

Lemma binary_round_aux_nonzero (s : bool) (m e : Z) (l : location) :
  0 < m -> emin prec emax <= e ->
  nonzero (binary_round_aux prec emax s m e l).
Proof.
  intros Hm He. unfold binary_round_aux.
  pose proof (shr_fexp_pos m e l Hm He) as [H1 H1'].
  destruct (shr_fexp prec emax m e l) as [mrs' e']; cbn [fst snd] in H1, H1'.
  pose proof (round_nearest_even_ge (shr_m mrs') (loc_of_shr_record mrs')) as H2.
  pose proof (shr_fexp_pos (round_nearest_even (shr_m mrs') (loc_of_shr_record mrs'))
                e' loc_Exact ltac:(lia) H1') as [H3 _].
  destruct (shr_fexp prec emax _ e' loc_Exact) as [mrs'' e'']; cbn [fst] in H3.
  destruct (shr_m mrs'') as [|p|p]; [lia | | lia].
  destruct (e'' <=? emax - prec); exact I.
Qed.

Lemma binary_round_shape (s : bool) (m : positive) :
  signed s (binary_round prec emax s m 0)
  /\ nonzero (binary_round prec emax s m 0).
Proof.
  unfold binary_round, shl_align.
  set (ex' := fexp prec emax (Zpos (digits2_pos m) + 0)).
  assert (Hex : emin prec emax <= ex') by (unfold ex', fexp; lia).
  assert (H0 : emin prec emax <= 0) by (unfold emin, prec, emax; lia).
  destruct (ex' - 0) as [|d|d] eqn:Hd;
    (split; [apply binary_round_aux_signed | apply binary_round_aux_nonzero]);
    lia.
Qed.

(** An [int] converts to a float of its own sign, zero only from [0]. *)
Lemma int_to_float_shape (z : Z) (f : spec_float) :
  int_to_float z = Ok f ->
  (0 <= z -> signed false f) /\ (z <> 0 -> nonzero f).
Proof.
  unfold int_to_float, binary_normalize.
  destruct z as [|p|p].
  - intros [= <-]. split; [reflexivity | lia].
  - pose proof (binary_round_shape false p) as [H1 H2].
    destruct (binary_round prec emax false p 0); intros [= <-]; auto.
  - pose proof (binary_round_shape true p) as [H1 H2].
    destruct (binary_round prec emax true p 0); intros [= <-]; split; auto; lia.
Qed.

Lemma float_sqrt_signed (f : spec_float) :
  signed false f \/ is_nan f = true ->
  exists r, float_sqrt f = Ok r.
Proof.
  unfold float_sqrt. intros [Hs | Hn].
  - destruct f as [s'|s'| |s' m e]; cbn in Hs; try contradiction; subst s';
      cbn [SFsqrt is_nan andb negb]; try (eexists; reflexivity).
    destruct (SFsqrt_core_binary prec emax (Zpos m) e) as [[mz ez] lz] eqn:Hc.
    assert (Hmz : 0 <= mz).
    { unfold SFsqrt_core_binary in Hc.
      match type of Hc with
      | (let (q, r) := Z.sqrtrem ?x in _) = _ =>
          pose proof (Z.sqrtrem_sqrt x) as Hq; pose proof (Z.sqrt_nonneg x) as Hq';
          destruct (Z.sqrtrem x) as [q r]
      end.
      cbn [fst] in Hq. injection Hc as <- _ _. lia. }
    pose proof (binary_round_aux_signed false mz ez lz Hmz) as Hr.
    destruct (binary_round_aux prec emax false mz ez lz); cbn in Hr; try contradiction;
      cbn [is_nan andb]; eexists; reflexivity.
  - destruct f; try discriminate. cbn. eexists; reflexivity.
Qed.

(** ** Dictionaries *)

Lemma get_set_same {V} (k : string) (v : V) (d : Dict.dict V) :
  Dict.get k (Dict.set k v d) = Some v.
Proof.
  induction d as [|[k' v'] d IH]; cbn.
  - now rewrite String.eqb_refl.
  - destruct (String.eqb k k') eqn:E; cbn; rewrite E; [reflexivity | exact IH].
Qed.

Lemma get_set_other {V} (k k' : string) (v : V) (d : Dict.dict V) :
  String.eqb k k' = false ->
  Dict.get k (Dict.set k' v d) = Dict.get k d.
Proof.
  intros Hk. induction d as [|[k0 v0] d IH]; cbn.
  - now rewrite Hk.
  - destruct (String.eqb k' k0) eqn:E; cbn.
    + apply String.eqb_eq in E. subst k0. now rewrite Hk.
    + destruct (String.eqb k k0); [reflexivity | exact IH].
Qed.

Lemma set_same {V} (k : string) (v : V) (d : Dict.dict V) :
  Dict.get k d = Some v -> Dict.set k v d = d.
Proof.
  induction d as [|[k' v'] d IH]; cbn; [discriminate|].
  destruct (String.eqb k k') eqn:E.
  - now intros [= ->].
  - intros H. now rewrite IH.
Qed.

Lemma get_None_not_in {V} (k : string) (d : Dict.dict V) :
  Dict.get k d = None <-> ~ In k (Dict.keys d).
Proof.
  induction d as [|[k' v'] d IH]; cbn.
  - tauto.
  - destruct (String.eqb k k') eqn:E.
    + apply String.eqb_eq in E. subst. split; [discriminate | tauto].
    + apply String.eqb_neq in E. rewrite IH. split.
      * intros H [H1 | H1]; [congruence | tauto].
      * tauto.
Qed.

Lemma keys_set_new {V} (k : string) (v : V) (d : Dict.dict V) :
  Dict.get k d = None -> Dict.keys (Dict.set k v d) = Dict.keys d ++ [k].
Proof.
  induction d as [|[k' v'] d IH]; cbn; [reflexivity|].
  destruct (String.eqb k k'); [discriminate|].
  intros H. cbn. f_equal. now apply IH.
Qed.

Lemma keys_set_old {V} (k : string) (v : V) (d : Dict.dict V) :
  Dict.get k d <> None -> Dict.keys (Dict.set k v d) = Dict.keys d.
Proof.
  induction d as [|[k' v'] d IH]; cbn; [congruence|].
  destruct (String.eqb k k'); [reflexivity|].
  intros H. cbn. f_equal. now apply IH.
Qed.

(** ** [strptime] *)

Lemma strptime_valid (s : string) (t : datetime) :
  strptime s = Ok t -> calendar t.
Proof.
  intros H. apply valid_date_calendar. revert H.
  unfold strptime. destruct (re_mdy s) as [|[[[m d] y] rest] ?]; [discriminate|].
  destruct (negb (String.eqb rest "")); [discriminate|].
  destruct (valid_date _) eqn:E; [|discriminate].
  now intros [= <-].
Qed.

Lemma strptime_raises (s : string) (e : exn) :
  strptime s = Raise e -> exists w, e = ValueError w.
Proof.
  unfold strptime. destruct (re_mdy s) as [|[[[m d] y] rest] ?].
  - intros [= <-]. eauto.
  - destruct (negb (String.eqb rest "")); [intros [= <-]; eauto|].
    destruct (valid_date _); [discriminate | intros [= <-]; eauto].
Qed.

Lemma strptime_obj_ok (v : pyval) (t : datetime) :
  strptime_obj v = Ok t -> exists s, v = PStr s /\ strptime s = Ok t.
Proof. destruct v; cbn; try discriminate. eauto. Qed.

Lemma strptime_obj_raises (v : pyval) (e : exn) :
  strptime_obj v = Raise e -> e = TypeError \/ exists w, e = ValueError w.
Proof.
  destruct v; cbn; try (intros [= <-]; now left).
  intros H. right. eapply strptime_raises, H.
Qed.

Lemma ge0_raises (v : pyval) (e : exn) : ge0 v = Raise e -> e = TypeError.
Proof. destruct v; cbn; congruence. Qed.

(** ** The validator *)

(** Unfolds the monad so that [cbn] can run a computation. *)
Ltac run :=
  cbn [bind ret raise lift assert try_except exit getitem
       LOGGER.debug LOGGER.warning LOGGER.error app fst snd].

Ltac unfold_m :=
  unfold getitem, bind, ret, raise, lift, assert, try_except, exit,
    LOGGER.debug, LOGGER.warning, LOGGER.error.

(** Closes a branch whose outcome differs from the one assumed. *)
Ltac dead := solve [cbn; let H := fresh in intros H; discriminate H].

Lemma check_value_set_true (value : record) (log : list log_entry) :
  check_value_set value = (Ok true, log) ->
  accepted value /\ log = accept_log.
Proof.
  unfold check_value_set. unfold_m.
  destruct (Dict.get "price_per_day" value) as [p|] eqn:Hp; [|dead].
  destruct (truthy p) eqn:Tp; [|dead].
  destruct (ge0 p) as [[|]|x] eqn:Gp; [|dead|apply ge0_raises in Gp as ->; dead].
  destruct (Dict.get "product_code" value) as [c|] eqn:Hc; [|dead].
  destruct (truthy c) eqn:Tc; [|dead].
  destruct (Dict.get "rental_start" value) as [vs|] eqn:Hs; [|dead].
  destruct (truthy vs) eqn:Ts; [|dead].
  destruct (Dict.get "rental_end" value) as [ve|] eqn:He; [|dead].
  destruct (truthy ve) eqn:Te; [|dead].
  destruct (strptime_obj vs) as [ts|x] eqn:Ps;
    [|apply strptime_obj_raises in Ps as [-> | [w ->]]; dead].
  destruct (strptime_obj ve) as [te|x] eqn:Pe;
    [|apply strptime_obj_raises in Pe as [-> | [w ->]]; dead].
  destruct (datetime_le ts te) eqn:Hle; [|dead].
  destruct (Dict.get "units_rented" value) as [u|] eqn:Hu; [|dead].
  destruct (truthy u) eqn:Tu; [|dead].
  destruct (ge0 u) as [[|]|x] eqn:Gu; [|dead|apply ge0_raises in Gu as ->; dead].
  cbn. intros [= <-].
  apply strptime_obj_ok in Ps as (s & -> & Ps).
  apply strptime_obj_ok in Pe as (e & -> & Pe).
  split; [|reflexivity].
  constructor.
  - exists p. auto.
  - exists c. auto.
  - exists s, e, ts, te. auto 6.
  - exists u. auto.
Qed.

Lemma accepted_check_value_set (value : record) :
  accepted value -> check_value_set value = (Ok true, accept_log).
Proof.
  intros [(p & Hp & Tp & Gp) (c & Hc & Tc) (s & e & ts & te & Hs & He & Ps & Pe & Hle)
            (u & Hu & Tu & Gu)].
  assert (Ts : truthy (PStr s) = true).
  { destruct s; [discriminate Ps | reflexivity]. }
  assert (Te : truthy (PStr e) = true).
  { destruct e; [discriminate Pe | reflexivity]. }
  unfold check_value_set. unfold_m.
  rewrite Hp, Tp, Gp, Hc, Tc, Hs, Ts, He, Te. cbn [strptime_obj].
  rewrite Ps, Pe, Hle, Hu, Tu, Gu. reflexivity.
Qed.

(** ** Enrichment *)

Ltac dict_get :=
  repeat first [ rewrite get_set_same
               | rewrite get_set_other by reflexivity ].

(** [enrich] reads four fields, and what it writes is [derive] of them. *)
Lemma enrich_eq (value : record) (vs ve p u : pyval) :
  Dict.get "rental_start" value = Some vs ->
  Dict.get "rental_end" value = Some ve ->
  Dict.get "price_per_day" value = Some p ->
  Dict.get "units_rented" value = Some u ->
  enrich value =
  match derive vs ve p u with
  | Ok x => (Ok (with_derived value x), [])
  | Raise e => (Raise e, [])
  end.
Proof.
  intros Hs He Hp Hu. unfold enrich, derive, getitem.
  rewrite Hs, He. run.
  destruct (strptime_obj vs) as [ts|x]; [|reflexivity]. run.
  destruct (strptime_obj ve) as [te|x]; [|reflexivity]. run.
  cbn [res_bind]. dict_get. rewrite Hp. run.
  destruct (py_mul _ p) as [tp|x]; [|reflexivity]. run.
  cbn [res_bind]. dict_get. run.
  destruct (math_sqrt tp) as [r|x]; [|reflexivity]. run.
  cbn [res_bind]. dict_get. rewrite Hu. run.
  destruct (py_truediv tp u) as [q|x]; reflexivity.
Qed.

(** What the two checks of a number leave. *)
Lemma checked_number (v : pyval) :
  truthy v = true -> ge0 v = Ok true -> positive_number v.
Proof.
  destruct v as [|b|z|f|s|l|d]; cbn; try discriminate.
  - auto.
  - intros H1 [= H2]. apply negb_true_iff, Z.eqb_neq in H1.
    apply Z.leb_le in H2. lia.
  - intros H1 [= H2]. apply negb_true_iff in H1.
    destruct f as [s|s| |s m e]; cbn in *; try discriminate;
      destruct s; cbn in *; try discriminate; auto.
Qed.

Lemma nonzero_SFeqb (f : spec_float) : nonzero f -> SFeqb f fzero = false.
Proof. destruct f as [s|s| |s m e]; cbn; try tauto; destruct s; reflexivity. Qed.

Lemma SFmul_signed (f g : spec_float) :
  signed false f -> signed false g ->
  signed false (SFmul prec emax f g) \/ is_nan (SFmul prec emax f g) = true.
Proof.
  destruct f as [s|s| |s m e]; cbn; try tauto; intros ->;
    destruct g as [s'|s'| |s' m' e']; cbn; try tauto; intros ->; auto.
  left. apply binary_round_aux_signed. lia.
Qed.

Lemma int_to_float_raises (z : Z) (e : exn) :
  int_to_float z = Raise e -> e = OverflowError.
Proof.
  unfold int_to_float. destruct (binary_normalize prec emax z 0 false); congruence.
Qed.

(** The outcomes of the three arithmetic steps on checked numbers. *)
Lemma py_mul_checked (d : Z) (p : pyval) :
  0 <= d -> positive_number p ->
  py_mul (PInt d) p = Raise OverflowError
  \/ exists tp, py_mul (PInt d) p = Ok tp /\ nonneg_number tp.
Proof.
  intros Hd Hp. destruct p as [|b|z|f|s|l|x]; cbn in Hp; try contradiction.
  - right. exists (PInt (d * b2z b)). split; [reflexivity|]. destruct b; cbn; lia.
  - right. exists (PInt (d * z)). split; [reflexivity | cbn; nia].
  - unfold py_mul; cbn [as_int].
    destruct (int_to_float d) as [fd|x] eqn:E.
    + right. eexists; split; [reflexivity|].
      apply SFmul_signed; [|tauto].
      now apply (int_to_float_shape d fd E).
    + left. now rewrite (int_to_float_raises _ _ E).
Qed.

Lemma math_sqrt_checked (v : pyval) :
  nonneg_number v ->
  math_sqrt v = Raise OverflowError \/ exists r, math_sqrt v = Ok (PFloat r).
Proof.
  destruct v as [|b|z|f|s|l|x]; cbn; try contradiction.
  - intros Hz. destruct (int_to_float z) as [f|x] eqn:E; cbn.
    + destruct (float_sqrt_signed f) as [r ->].
      { left. now apply (int_to_float_shape z f E). }
      right. eexists; reflexivity.
    + left. now rewrite (int_to_float_raises _ _ E).
  - intros Hf. destruct (float_sqrt_signed f Hf) as [r ->].
    right. eexists; reflexivity.
Qed.

Lemma int_truediv_nonzero (a b : Z) :
  b <> 0 ->
  int_truediv a b = Raise OverflowError \/ exists q, int_truediv a b = Ok q.
Proof.
  intros Hb. unfold int_truediv.
  destruct (b =? 0) eqn:E; [apply Z.eqb_eq in E; contradiction|].
  destruct (a =? 0); [right; eexists; reflexivity|].
  destruct (SFdiv_core_binary prec emax (Z.abs a) 0 (Z.abs b) 0) as [[q e] l].
  destruct (binary_round_aux prec emax _ q e l); eauto.
Qed.

Lemma py_truediv_checked (v u : pyval) :
  nonneg_number v -> positive_number u ->
  py_truediv v u = Raise OverflowError \/ exists q, py_truediv v u = Ok (PFloat q).
Proof.
  intros Hv Hu.
  assert (Hint : forall a b, b <> 0 ->
            res_bind (int_truediv a b) (fun q => Ok (PFloat q)) = Raise OverflowError
            \/ exists q, res_bind (int_truediv a b) (fun q => Ok (PFloat q)) = Ok (PFloat q)).
  { intros a b Hb. destruct (int_truediv_nonzero a b Hb) as [-> | [q ->]]; cbn; eauto. }
  assert (Hfl : forall f g, nonzero g ->
            exists q, res_bind (float_div f g) (fun q => Ok (PFloat q)) = Ok (PFloat q)).
  { intros f g Hg. unfold float_div. rewrite (nonzero_SFeqb g Hg). cbn. eauto. }
  destruct v as [| |a|f| | |]; cbn in Hv; try contradiction;
    destruct u as [|b|z|g|s|l|x]; cbn in Hu; try contradiction;
    unfold py_truediv; cbn [as_int].
  - subst b. apply Hint. cbn. lia.
  - apply Hint. lia.
  - destruct (int_to_float a) as [f|x] eqn:E; cbn [res_bind].
    + right. apply Hfl. tauto.
    + left. now rewrite (int_to_float_raises _ _ E).
  - subst b. destruct (int_to_float (b2z true)) as [g|x] eqn:E; cbn [res_bind].
    + right. apply Hfl. apply (int_to_float_shape _ _ E). cbn. lia.
    + left. now rewrite (int_to_float_raises _ _ E).
  - destruct (int_to_float z) as [g|x] eqn:E; cbn [res_bind].
    + right. apply Hfl. apply (int_to_float_shape _ _ E). lia.
    + left. now rewrite (int_to_float_raises _ _ E).
  - right. apply Hfl. tauto.
Qed.

(** On the fields of an accepted record, [derive] yields the four values
    or stops on an [int] beyond the range of [float]. *)
Lemma derive_accepted (s e : string) (ts te : datetime) (p u : pyval) :
  strptime s = Ok ts -> strptime e = Ok te -> datetime_le ts te = true ->
  positive_number p -> positive_number u ->
  0 <= sub_days te ts
  /\ (derive (PStr s) (PStr e) p u = Raise OverflowError
      \/ exists tp r q,
           derive (PStr s) (PStr e) p u
           = Ok (PInt (sub_days te ts), tp, PFloat r, PFloat q)
           /\ nonneg_number tp).
Proof.
  intros Ps Pe Hle Hp Hu.
  assert (Hd : 0 <= sub_days te ts).
  { apply sub_days_exact;
      [exact (strptime_valid _ _ Ps) | exact (strptime_valid _ _ Pe) | exact Hle]. }
  split; [exact Hd|].
  unfold derive. cbn [strptime_obj]. rewrite Ps, Pe. cbn [res_bind].
  destruct (py_mul_checked _ p Hd Hp) as [-> | (tp & -> & Htp)]; [now left|].
  cbn [res_bind].
  destruct (math_sqrt_checked tp Htp) as [-> | [r ->]]; [now left|]. cbn [res_bind].
  destruct (py_truediv_checked tp u Htp Hu) as [-> | [q ->]]; [now left|].
  right. cbn. eauto.
Qed.

(** ** The batch loop *)

Lemma items_loop_app (a b : list (string * record)) :
  forall cleaned,
  items_loop (a ++ b) cleaned =
  (cleaned' <- items_loop a cleaned ;; items_loop b cleaned').
Proof.
  induction a as [|[k v] a IH]; intros cleaned; cbn [app items_loop].
  - unfold bind, ret. destruct (items_loop b cleaned). reflexivity.
  - unfold bind at 1 3. destruct (process_item k v cleaned) as [[c|x] l]; [|reflexivity].
    rewrite IH. unfold bind.
    destruct (items_loop a c) as [[c'|x] l']; [|reflexivity].
    destruct (items_loop b c') as [r l'']. now rewrite app_assoc.
Qed.

(** One turn of the loop on an accepted record. *)
Lemma process_item_accepted (key : string) (value : record)
    (cleaned : Dict.dict record) :
  accepted value ->
  process_item key value cleaned = (Raise OverflowError, accept_log)
  \/ exists value',
       enrich value = (Ok value', [])
       /\ process_item key value cleaned =
          (Ok (Dict.set key value' cleaned),
           accept_log
           ++ [mk_log DEBUG
                 (String.append "Added validated item to scrubbed dataset:"
                    (String.append nl "%s")) [ArgRecord value']]).
Proof.
  intros Hacc. pose proof (accepted_check_value_set value Hacc) as Hchk.
  destruct Hacc as [(p & Hp & Tp & Gp) _ (s & e & ts & te & Hs & He & Ps & Pe & Hle)
                      (u & Hu & Tu & Gu)].
  pose proof (enrich_eq value _ _ _ _ Hs He Hp Hu) as Heq.
  destruct (derive_accepted s e ts te p u Ps Pe Hle
              (checked_number p Tp Gp) (checked_number u Tu Gu))
    as [_ [Hd | (tp & r & q & Hd & _)]]; rewrite Hd in Heq.
  - left. unfold process_item. rewrite Hchk, Heq. reflexivity.
  - right. eexists. split; [exact Heq|].
    unfold process_item. rewrite Hchk, Heq. reflexivity.
Qed.

(** A turn that returns either skipped the record or stored its
    enrichment under its key. *)
Lemma process_item_ok (key : string) (value : record)
    (cleaned cleaned' : Dict.dict record) (log : list log_entry) :
  process_item key value cleaned = (Ok cleaned', log) ->
  cleaned' = cleaned
  \/ exists value', enrich value = (Ok value', [])
                    /\ cleaned' = Dict.set key value' cleaned.
Proof.
  unfold process_item.
  destruct (check_value_set value) as [[[|]|x] l] eqn:Hchk.
  - apply check_value_set_true in Hchk as [Hacc ->].
    destruct (process_item_accepted key value cleaned Hacc)
      as [H | (value' & He & H)]; unfold process_item in H;
      rewrite (accepted_check_value_set value Hacc) in H; rewrite H.
    + discriminate.
    + intros [= <- _]. right. eauto.
  - cbn. intros [= <- _]. now left.
  - cbn. destruct x; cbn; discriminate.
Qed.

(** ** Absent keys *)

(** A key that is not in the record raises [KeyError] at the first check
    that reads it; the handler of [check_value_set] lets it through. *)
Lemma absent_price_raises (value : record) :
  Dict.get "price_per_day" value = None ->
  check_value_set value =
  (Raise (KeyError "price_per_day"), firstn 1 accept_log).
Proof.
  intros H. unfold check_value_set. unfold_m. rewrite H. reflexivity.
Qed.

(** C1 (evaluation at the failing input).  On the record of example 2,
    which has no [units_rented] key, the validator does not return false:
    it raises [KeyError], and so does the batch, which catches only
    [ValueError].  No warning is logged and no mapping is returned. *)
Theorem absent_units_rented_raises_KeyError :
  Dict.get "units_rented" rental_no_units = None
  /\ check_value_set rental_no_units
     = (Raise (KeyError "units_rented"), accept_log)
  /\ calculate_additional_fields [("A", rental_no_units); ("B", rental_A)]
     = (Raise (KeyError "units_rented"), accept_log).
Proof. repeat split; reflexivity. Qed.

(** ** The order of the checks *)

Ltac settle :=
  cbn; let H := fresh in intros H;
  first [ discriminate H
        | injection H as <-; split; [reflexivity | cbn; tauto] ].

(** C2 (as stated, refuted).  With a price that is the string [10],
    check 1 holds and check 2 does not, yet the validator neither returns
    false nor logs a warning: the comparison raises [TypeError]. *)
Lemma string_price_is_not_rejected :
  present_and_truthy "price_per_day" rental_price_str = Holds
  /\ non_negative "price_per_day" rental_price_str <> Holds
  /\ check_value_set rental_price_str
     = (Raise TypeError, firstn 1 accept_log).
Proof. split; [reflexivity|]. split; [discriminate | reflexivity]. Qed.

(** C2 (amended).  On a record that holds every field read up to the
    deciding check, the validator decides as the first of the nine checks
    that does not hold: false and one warning naming the condition when
    check 1-5 or 7-9 fails, the parse error itself and no warning at
    check 6, [TypeError] and no warning where check 2, 6 or 9 meets a
    field of the wrong kind, true when all hold; no check after the
    deciding one is evaluated, whatever the fields it would read. *)
Theorem check_value_set_order (value : record) (d : decision) :
  spec_validate value = Some d ->
  check_value_set value = outcome d
  /\ match d with
     | Accept => True
     | Reject n _ => In n [1; 2; 3; 4; 5; 7; 8; 9]%nat
     | Abort n _ => n = 6%nat
     | Fault n => In n [2; 6; 9]%nat
     end.
Proof.
  unfold spec_validate, checks, first_failure, check_value_set.
  unfold present_and_truthy, non_negative, dates_parse, start_not_after_end.
  unfold_m.
  destruct (Dict.get "price_per_day" value) as [p|]; [|settle].
  destruct (truthy p); [|settle].
  destruct (ge0 p) as [[|]|x] eqn:Gp;
    [|settle|apply ge0_raises in Gp as ->; settle].
  destruct (Dict.get "product_code" value) as [c|]; [|settle].
  destruct (truthy c); [|settle].
  destruct (Dict.get "rental_start" value) as [vs|]; [|settle].
  destruct (truthy vs); [|settle].
  destruct (Dict.get "rental_end" value) as [ve|]; [|settle].
  destruct (truthy ve); [|settle].
  destruct vs as [| | | |s| |]; try settle.
  unfold parse_finding at 1 3. cbn [strptime_obj].
  destruct (strptime s) as [ts|x] eqn:Ps;
    [|apply strptime_raises in Ps as [w ->]; settle].
  destruct ve as [| | | |e| |]; try settle.
  unfold parse_finding. cbn [strptime_obj].
  destruct (strptime e) as [te|x] eqn:Pe;
    [|apply strptime_raises in Pe as [w ->]; settle].
  destruct (datetime_le ts te); [|settle].
  destruct (Dict.get "units_rented" value) as [u|]; [|settle].
  destruct (truthy u); [|settle].
  destruct (ge0 u) as [[|]|x] eqn:Gu;
    [|settle|apply ge0_raises in Gu as ->]; settle.
Qed.

(** ** Dates that do not parse *)

Lemma reaches_parse_check (value : record) (s e : string) (w : value_error) :
  reaches_parse value s e -> first_parse_error s e = Some w ->
  check_value_set value = (Raise (ValueError w), debug_before 6).
Proof.
  intros [(p & Hp & Tp & Gp) (c & Hc & Tc) [Hs Ns] [He Ne]] Hw.
  assert (Ts : truthy (PStr s) = true).
  { cbn. apply negb_true_iff, String.eqb_neq, Ns. }
  assert (Te : truthy (PStr e) = true).
  { cbn. apply negb_true_iff, String.eqb_neq, Ne. }
  unfold check_value_set. unfold_m.
  rewrite Hp, Tp, Gp, Hc, Tc, Hs, Ts, He, Te. cbn [strptime_obj].
  unfold first_parse_error in Hw.
  destruct (strptime s) as [ts|x] eqn:Ps.
  - destruct (strptime e) as [te|x] eqn:Pe; [discriminate|].
    destruct x; try discriminate. injection Hw as ->. reflexivity.
  - destruct x; try discriminate. injection Hw as ->. reflexivity.
Qed.

Lemma process_item_parse_error (key : string) (value : record)
    (cleaned : Dict.dict record) (w : value_error) :
  check_value_set value = (Raise (ValueError w), debug_before 6) ->
  process_item key value cleaned =
  (Raise (SystemExit 0),
   debug_before 6 ++ [mk_log ERROR "%s" [ArgExn (ValueError w)]]).
Proof. intros H. unfold process_item. rewrite H. reflexivity. Qed.

(** C3 (as stated, refuted).  The start date of this record does not
    parse, but its price is zero: check 1 rejects it before any date is
    parsed, the record is skipped with a warning, the next record is
    processed and the batch returns a mapping. *)
Lemma unparseable_date_behind_failed_check_is_skipped :
  strptime "2020-01-01" = Raise (ValueError (NoMatch "2020-01-01"))
  /\ Dict.get "rental_start" rental_iso_date_free = Some (PStr "2020-01-01")
  /\ check_value_set rental_iso_date_free
     = outcome (Reject 1 "missing price_per_day")
  /\ exists r log,
       calculate_additional_fields
         [("A", rental_iso_date_free); ("B", rental_A)]
       = (Ok [("B", r)], log)
       /\ forallb (fun en => match lvl en with ERROR => false | _ => true end)
            log = true.
Proof.
  split; [reflexivity|]. split; [reflexivity|]. split; [reflexivity|].
  eexists. eexists. split; [vm_compute; reflexivity | reflexivity].
Qed.

(** C3 (amended).  For every record that passes checks 1 to 5 and has a
    date string that does not parse, reached by a batch whose earlier
    records raised nothing: the [ValueError] leaves the validator uncaught,
    the batch logs it as an error and raises [SystemExit], so no mapping is
    returned, the records after it are not processed, and [main] writes no
    file. *)
Theorem unparseable_date_aborts_run
    (pre post : Dict.dict record) (key : string) (value : record)
    (s e : string) (w : value_error)
    (cleaned : Dict.dict record) (log : list log_entry) :
  calculate_additional_fields pre = (Ok cleaned, log) ->
  reaches_parse value s e ->
  first_parse_error s e = Some w ->
  let log' := log ++ debug_before 6
              ++ [mk_log ERROR "%s" [ArgExn (ValueError w)]] in
  check_value_set value = (Raise (ValueError w), debug_before 6)
  /\ calculate_additional_fields (pre ++ (key, value) :: post)
     = (Raise (SystemExit 0), log')
  /\ forall json_loads json_dumps writable input output fs content,
       Dict.get input fs = Some content ->
       json_loads content = Some (pre ++ (key, value) :: post) ->
       main json_loads json_dumps writable input output fs
       = ((Raise (SystemExit 0), log'), fs).
Proof.
  intros Hpre Hr Hw log'.
  pose proof (reaches_parse_check value s e w Hr Hw) as Hchk.
  assert (Hrun : calculate_additional_fields (pre ++ (key, value) :: post)
                 = (Raise (SystemExit 0), log')).
  { unfold calculate_additional_fields in *. rewrite items_loop_app.
    unfold bind at 1. rewrite Hpre. cbn [items_loop]. unfold bind.
    rewrite (process_item_parse_error key value cleaned w Hchk). reflexivity. }
  split; [exact Hchk|]. split; [exact Hrun|].
  intros json_loads json_dumps writable input output fs content Hin Hload.
  unfold main, load_rentals_file, io_bind, io_lift, open_r, json_load.
  rewrite Hin. cbn. rewrite Hload. cbn. rewrite Hrun. reflexivity.
Qed.

(** ** The first example *)

(** C4.  On the mapping of example 1 the batch returns a mapping whose
    record under ["A"] has [total_days = 2], [total_price = 20],
    [unit_cost] the float 10 and [sqrt_total_price] the float nearest to
    the square root of 20, which lies between 4.47 and 4.48. *)
Theorem example_1_derived_fields :
  exists out log r,
    calculate_additional_fields [("A", rental_A)] = (Ok out, log)
    /\ Dict.get "A" out = Some r
    /\ Dict.get "total_days" r = Some (PInt 2)
    /\ Dict.get "total_price" r = Some (PInt 20)
    /\ Dict.get "sqrt_total_price" r = Some (PFloat sqrt_20)
    /\ Dict.get "unit_cost" r = Some (PFloat float_10)
    /\ scaled float_10 49 = Some (10 * 2 ^ 49)
    /\ (exists m, scaled sqrt_20 50 = Some m
                  /\ 447 * 2 ^ 50 < 100 * m < 448 * 2 ^ 50
                  /\ (2 * m - 1) * (2 * m - 1) < 4 * (20 * 2 ^ 100)
                     < (2 * m + 1) * (2 * m + 1)).
Proof.
  do 3 eexists.
  split; [vm_compute; reflexivity|].
  repeat (split; [reflexivity|]).
  eexists. split; [reflexivity|]. vm_compute. repeat split; reflexivity.
Qed.

(** ** Derived fields of an accepted record *)

Lemma get_with_derived (value : record) (d p r q : pyval) :
  let value' := with_derived value (d, p, r, q) in
  Dict.get "total_days" value' = Some d
  /\ Dict.get "total_price" value' = Some p
  /\ Dict.get "sqrt_total_price" value' = Some r
  /\ Dict.get "unit_cost" value' = Some q.
Proof. cbn [with_derived]. repeat split; dict_get; reflexivity. Qed.

Lemma get_with_derived_base (value : record) (x : pyval * pyval * pyval * pyval)
    (k : string) :
  In k ("product_code" :: base_keys) ->
  Dict.get k (with_derived value x) = Dict.get k value.
Proof.
  destruct x as [[[d p] r] q]. cbn [with_derived].
  intros [<- | [<- | [<- | [<- | [<- | []]]]]]; dict_get; reflexivity.
Qed.

Lemma with_derived_twice (value : record) (x : pyval * pyval * pyval * pyval) :
  with_derived (with_derived value x) x = with_derived value x.
Proof.
  destruct x as [[[d p] r] q].
  destruct (get_with_derived value d p r q) as (H1 & H2 & H3 & H4).
  set (value' := with_derived value (d, p, r, q)) in *.
  unfold with_derived at 1.
  rewrite (set_same "total_days" d value' H1).
  rewrite (set_same "total_price" p value' H2).
  rewrite (set_same "sqrt_total_price" r value' H3).
  now rewrite (set_same "unit_cost" q value' H4).
Qed.

(** What validation establishes, and what enrichment then does. *)
Lemma enrich_accepted (value : record) :
  accepted value ->
  exists s e ts te p u,
    Dict.get "rental_start" value = Some (PStr s)
    /\ Dict.get "rental_end" value = Some (PStr e)
    /\ strptime s = Ok ts /\ strptime e = Ok te /\ datetime_le ts te = true
    /\ Dict.get "price_per_day" value = Some p /\ positive_number p
    /\ Dict.get "units_rented" value = Some u /\ positive_number u
    /\ 0 <= sub_days te ts
    /\ (enrich value = (Raise OverflowError, [])
        \/ exists tp r q,
             derive (PStr s) (PStr e) p u
             = Ok (PInt (sub_days te ts), tp, PFloat r, PFloat q)
             /\ nonneg_number tp
             /\ enrich value
                = (Ok (with_derived value
                         (PInt (sub_days te ts), tp, PFloat r, PFloat q)), [])).
Proof.
  intros [(p & Hp & Tp & Gp) _ (s & e & ts & te & Hs & He & Ps & Pe & Hle)
            (u & Hu & Tu & Gu)].
  exists s, e, ts, te, p, u.
  pose proof (checked_number p Tp Gp) as Pp.
  pose proof (checked_number u Tu Gu) as Pu.
  repeat (split; [assumption|]).
  rewrite (enrich_eq value _ _ _ _ Hs He Hp Hu).
  destruct (derive_accepted s e ts te p u Ps Pe Hle Pp Pu)
    as [Hdays [Hd | (tp & r & q & Hd & Htp)]]; (split; [exact Hdays|]);
    rewrite Hd.
  - now left.
  - right. exists tp, r, q. auto.
Qed.

(** ** Rounding stays finite below [2^1023] *)

Lemma digits2_pos_gt (p : positive) : Zpos p < 2 ^ Zpos (digits2_pos p).
Proof.
  assert (Hstep : forall q, 2 ^ Zpos (Pos.succ q) = 2 * 2 ^ Zpos q).
  { intros q. rewrite (Pos2Z.inj_succ q). apply Z.pow_succ_r. lia. }
  induction p as [p IH|p IH|]; cbn [digits2_pos].
  - rewrite Hstep, (Pos2Z.inj_xI p). lia.
  - rewrite Hstep, (Pos2Z.inj_xO p). lia.
  - cbn. lia.
Qed.

Lemma Zdigits2_nonneg (m : Z) : 0 <= Zdigits2 m.
Proof. destruct m; cbn; lia. Qed.

Lemma Zdigits2_gt (m : Z) : 0 <= m -> m < 2 ^ Zdigits2 m.
Proof.
  destruct m as [|p|p]; cbn [Zdigits2]; intros H;
    [reflexivity | apply digits2_pos_gt | lia].
Qed.

Lemma Zdigits2_le (m k : Z) : 0 <= k -> 0 <= m < 2 ^ k -> Zdigits2 m <= k.
Proof.
  intros Hk [H0 Hm]. destruct m as [|p|p]; cbn [Zdigits2]; try lia.
  pose proof (digits2_pos_le p) as Hd.
  assert (Hlt : 2 ^ (Zpos (digits2_pos p) - 1) < 2 ^ k) by lia.
  apply Z.pow_lt_mono_r_iff in Hlt; lia.
Qed.

Lemma shr_fexp_spec (m e : Z) (l : location) :
  0 <= m ->
  let n := fexp prec emax (Zdigits2 m + e) - e in
  shr_m (fst (shr_fexp prec emax m e l)) = (if 0 <? n then m / 2 ^ n else m)
  /\ snd (shr_fexp prec emax m e l) = (if 0 <? n then e + n else e).
Proof.
  intros Hm n. unfold shr_fexp, shr. fold n.
  destruct n as [|p|p]; cbn [fst snd Z.ltb Z.compare];
    rewrite ?shr_record_of_loc_m; auto.
  rewrite iter_shr_1_m by (rewrite shr_record_of_loc_m; exact Hm).
  now rewrite shr_record_of_loc_m.
Qed.

Lemma round_nearest_even_le (m : Z) (l : location) :
  round_nearest_even m l <= m + 1.
Proof.
  unfold round_nearest_even. destruct l as [|[]]; try destruct (Z.even m); lia.
Qed.

(** A mantissa and exponent that denote less than [2^K], [K <= 1023],
    round to a finite float. *)
Lemma binary_round_aux_finite (s : bool) (m e : Z) (l : location) (K : Z) :
  0 <= m -> -1074 <= e <= 971 -> e <= K <= 1023 -> m < 2 ^ (K - e) ->
  match binary_round_aux prec emax s m e l with
  | S754_infinity _ => False
  | _ => True
  end.
Proof.
  intros Hm He HK Hlt. unfold binary_round_aux.
  pose proof (shr_fexp_spec m e l Hm) as [S1 S2].
  destruct (shr_fexp prec emax m e l) as [mrs' e']; cbn [fst snd] in S1, S2.
  set (m' := shr_m mrs') in *.
  pose proof (Zdigits2_le m (K - e) ltac:(lia) ltac:(lia)) as Hdig.
  pose proof (Zdigits2_gt m Hm) as Hgt.
  pose proof (Zdigits2_nonneg m) as Hdn.
  assert (F : 0 <= m' < 2 ^ 53 /\ m' < 2 ^ (K - e') /\ -1074 <= e' <= 971 /\ e' <= K).
  { revert S1 S2. unfold fexp, prec, emax, emin.
    destruct (0 <? _) eqn:En; [apply Z.ltb_lt in En | apply Z.ltb_ge in En];
      intros -> ->.
    - assert (En' : Z.max (Zdigits2 m + e - 53) (3 - 1024 - 53) - e
                    = Zdigits2 m - 53) by lia.
      rewrite En' in *.
      assert (Hm53 : m < 2 ^ (Zdigits2 m - 53) * 2 ^ 53).
      { rewrite <- Z.pow_add_r by lia.
        replace (Zdigits2 m - 53 + 53) with (Zdigits2 m) by lia. exact Hgt. }
      assert (Hd : m / 2 ^ (Zdigits2 m - 53) < 2 ^ 53)
        by (apply Z.div_lt_upper_bound; lia).
      assert (H0 : 0 <= m / 2 ^ (Zdigits2 m - 53)) by (apply Z.div_pos; lia).
      assert (Hp : 2 ^ 53 <= 2 ^ (K - (e + (Zdigits2 m - 53))))
        by (apply Z.pow_le_mono_r; lia).
      lia.
    - assert (Zdigits2 m <= 53) by lia.
      assert (2 ^ Zdigits2 m <= 2 ^ 53) by (apply Z.pow_le_mono_r; lia).
      lia. }
  destruct F as (F1 & F2 & F3 & F4). clear S1 S2.
  pose proof (round_nearest_even_ge m' (loc_of_shr_record mrs')) as R1.
  pose proof (round_nearest_even_le m' (loc_of_shr_record mrs')) as R2.
  set (mr := round_nearest_even m' (loc_of_shr_record mrs')) in *.
  pose proof (shr_fexp_spec mr e' loc_Exact ltac:(lia)) as [T1 T2].
  destruct (shr_fexp prec emax mr e' loc_Exact) as [mrs'' e''];
    cbn [fst snd] in T1, T2.
  assert (He'' : e'' <= 971).
  { clear T1. revert T2. unfold fexp, prec, emax, emin.
    destruct (0 <? _) eqn:En; [apply Z.ltb_lt in En | apply Z.ltb_ge in En];
      intros ->; [|lia].
    assert (Hd54 : Zdigits2 mr <= 54).
    { apply Zdigits2_le; [lia|]. split; [lia|].
      assert (2 ^ 53 < 2 ^ 54) by (apply Z.pow_lt_mono_r; lia). lia. }
    assert (Hd : 54 <= Zdigits2 mr) by lia.
    assert (Hmr : 2 ^ 53 <= mr).
    { destruct (Z_lt_le_dec mr (2 ^ 53)) as [Hc|Hc]; [|exact Hc].
      pose proof (Zdigits2_le mr 53 ltac:(lia) ltac:(lia)). lia. }
    assert (H53 : 2 ^ 53 < 2 ^ (K - e' + 1)).
    { replace (K - e' + 1) with (1 + (K - e')) by lia.
      rewrite Z.pow_add_r by lia. change (2 ^ 1) with 2. lia. }
    apply Z.pow_lt_mono_r_iff in H53; lia. }
  destruct (shr_m mrs'') as [|p|p]; try exact I.
  assert (E : (e'' <=? emax - prec) = true) by (apply Z.leb_le; unfold emax, prec; lia).
  rewrite E. exact I.
Qed.

Lemma iter_xO_spec (d p : positive) :
  Zpos (Pos.iter xO p d) = Zpos p * 2 ^ Zpos d.
Proof.
  induction d as [|d IH] using Pos.peano_ind.
  - cbn. lia.
  - rewrite Pos.iter_succ, (Pos2Z.inj_xO (Pos.iter xO p d)), IH,
      (Pos2Z.inj_succ d), Z.pow_succ_r by lia. lia.
Qed.

(** An [int] below [2^1023] converts to a float. *)
Lemma int_to_float_ok (z : Z) :
  0 <= z < 2 ^ 1023 -> exists f, int_to_float z = Ok f.
Proof.
  intros [H0 Hz]. unfold int_to_float, binary_normalize.
  destruct z as [|p|p]; [eexists; reflexivity | | lia].
  assert (Hfin : match binary_round prec emax false p 0 with
                 | S754_infinity _ => False
                 | _ => True
                 end).
  { unfold binary_round, shl_align.
    pose proof (digits2_pos_gt p) as Hgt.
    pose proof (Zdigits2_le (Zpos p) 1023 ltac:(lia) ltac:(lia)) as Hd.
    cbn [Zdigits2] in Hd.
    assert (Hf : fexp prec emax (Zpos (digits2_pos p) + 0)
                 = Zpos (digits2_pos p) - 53)
      by (unfold fexp, emin, prec, emax; lia).
    rewrite Hf.
    assert (Hgt0 : Zpos p < 2 ^ (Zpos (digits2_pos p) - 0))
      by (now rewrite Z.sub_0_r).
    destruct (Zpos (digits2_pos p) - 53 - 0) as [|d|d] eqn:Ed.
    - apply (binary_round_aux_finite false (Zpos p) 0 loc_Exact
               (Zpos (digits2_pos p))); lia.
    - apply (binary_round_aux_finite false (Zpos p) 0 loc_Exact
               (Zpos (digits2_pos p))); lia.
    - apply (binary_round_aux_finite false (Zpos (Pos.iter xO p d))
               (Zpos (digits2_pos p) - 53) loc_Exact (Zpos (digits2_pos p)));
        try lia.
      rewrite iter_xO_spec.
      replace (Zpos (digits2_pos p) - (Zpos (digits2_pos p) - 53)) with 53 by lia.
      assert (Hp : 2 ^ Zpos (digits2_pos p) * 2 ^ Zpos d = 2 ^ 53).
      { rewrite <- Z.pow_add_r by lia. f_equal. lia. }
      assert (0 < 2 ^ Zpos d) by (apply Z.pow_pos_nonneg; lia).
      nia. }
  destruct (binary_round prec emax false p 0); try contradiction;
    eexists; reflexivity.
Qed.

(** The quotient of an [int] below [2^1023] by an [int] above zero is a
    float. *)
Lemma int_truediv_ok (a b : Z) :
  0 <= a < 2 ^ 1023 -> 0 < b -> exists q, int_truediv a b = Ok q.
Proof.
  intros [H0 Ha] Hb. unfold int_truediv.
  destruct (b =? 0) eqn:Eb; [apply Z.eqb_eq in Eb; lia|].
  destruct (a =? 0) eqn:Ea; [eexists; reflexivity|].
  apply Z.eqb_neq in Ea.
  rewrite (Z.abs_eq a), (Z.abs_eq b) by lia.
  unfold SFdiv_core_binary.
  set (e' := Z.min (fexp prec emax (Zdigits2 a + 0 - (Zdigits2 b + 0))) (0 - 0)).
  assert (He' : -1074 <= e' <= 0) by (unfold e', fexp, emin, prec, emax; lia).
  set (m' := match 0 - 0 - e' with
             | 0 => a
             | Zpos _ => Z.shiftl a (0 - 0 - e')
             | Zneg _ => 0
             end).
  assert (Hm' : 0 <= m' < 2 ^ (1023 - e')).
  { unfold m'. destruct (0 - 0 - e') as [|s|s] eqn:Es.
    - replace e' with 0 by lia. rewrite Z.sub_0_r. lia.
    - rewrite Z.shiftl_mul_pow2 by lia.
      replace (1023 - e') with (1023 + Zpos s) by lia.
      rewrite Z.pow_add_r by lia.
      assert (0 < 2 ^ Zpos s) by (apply Z.pow_pos_nonneg; lia). nia.
    - lia. }
  pose proof (Z_div_mod m' b ltac:(lia)) as Hdm.
  destruct (Z.div_eucl m' b) as [q r].
  assert (Hq : 0 <= q <= m') by nia.
  pose proof (binary_round_aux_finite (xorb (a <? 0) (b <? 0)) q e'
                (new_location b r) 1023 ltac:(lia) ltac:(lia) ltac:(lia)
                ltac:(lia)) as Hfin.
  destruct (binary_round_aux prec emax _ q e' _); try contradiction;
    eexists; reflexivity.
Qed.

(** ** What enrichment does after line 100 *)

Lemma bind_ok {A B} (a : A) (f : A -> M B) : bind (Ok a, []) f = f a.
Proof. unfold bind. destruct (f a). reflexivity. Qed.

(** Line 100 writes [total_days] before any arithmetic: what is left of
    [enrich] is lines 101-105 on the record that holds it. *)
Lemma enrich_after_total_days (value : record) (s e : string) (ts te : datetime) :
  Dict.get "rental_start" value = Some (PStr s) ->
  Dict.get "rental_end" value = Some (PStr e) ->
  strptime s = Ok ts -> strptime e = Ok te ->
  enrich value
  = enrich_prices (Dict.set "total_days" (PInt (sub_days te ts)) value).
Proof.
  intros Hs He Ps Pe. unfold enrich, getitem, ret, lift.
  rewrite Hs, bind_ok. cbn [strptime_obj]. rewrite Ps, bind_ok.
  rewrite He, bind_ok. cbn [strptime_obj]. rewrite Pe, bind_ok.
  reflexivity.
Qed.

Lemma positive_int (v : pyval) (z : Z) :
  positive_number v -> as_int v = Some z -> 0 < z.
Proof.
  destruct v as [|b|x|f|s|l|d]; cbn; try discriminate.
  - intros -> [= <-]. reflexivity.
  - intros H [= <-]. exact H.
Qed.

(** With an [int] price and unit count and a total price below [2^1023],
    the arithmetic of lines 101-105 goes through. *)
Lemma derive_ints (s e : string) (ts te : datetime) (p u : pyval) (z w : Z) :
  strptime s = Ok ts -> strptime e = Ok te ->
  0 <= sub_days te ts ->
  as_int p = Some z -> 0 < z -> as_int u = Some w -> 0 < w ->
  sub_days te ts * z < 2 ^ 1023 ->
  exists r q,
    derive (PStr s) (PStr e) p u
    = Ok (PInt (sub_days te ts), PInt (sub_days te ts * z), PFloat r, PFloat q).
Proof.
  intros Ps Pe Hd Hz Hzp Hw Hwp Hlt.
  unfold derive. cbn [strptime_obj]. rewrite Ps, Pe. cbn [res_bind].
  assert (Hmul : py_mul (PInt (sub_days te ts)) p
                 = Ok (PInt (sub_days te ts * z))).
  { unfold py_mul. cbn [as_int]. rewrite Hz. reflexivity. }
  rewrite Hmul. cbn [res_bind].
  assert (Htp : 0 <= sub_days te ts * z < 2 ^ 1023) by nia.
  destruct (int_to_float_ok _ Htp) as [f Hf].
  destruct (float_sqrt_signed f) as [r Hr].
  { left. apply (int_to_float_shape _ f Hf). lia. }
  assert (Hsqrt : math_sqrt (PInt (sub_days te ts * z)) = Ok (PFloat r)).
  { cbn. rewrite Hf. cbn. rewrite Hr. reflexivity. }
  rewrite Hsqrt. cbn [res_bind].
  destruct (int_truediv_ok _ w Htp Hwp) as [q Hq].
  assert (Hdiv : py_truediv (PInt (sub_days te ts * z)) u = Ok (PFloat q)).
  { unfold py_truediv. cbn [as_int]. rewrite Hw, Hq. reflexivity. }
  rewrite Hdiv. cbn [res_bind]. eauto.
Qed.

(** C5.  For every record that passes validation, with [ts] and [te] its
    parsed start and end: [te - ts] in days is not negative, it is zero
    for a same-day rental, and it is the number of calendar days that lead
    from [ts] to [te].  Enrichment writes it as [total_days] before any
    other arithmetic: what it does next is lines 101-105 on the record
    that holds it.  Enrichment then returns the record, still with that
    [total_days], or stops on [OverflowError]; it does return whenever the
    price and the unit count are [int]s and the total price is below
    [2^1023]. *)
Theorem total_days_is_day_difference (value : record) (log : list log_entry) :
  check_value_set value = (Ok true, log) ->
  exists s e ts te,
    Dict.get "rental_start" value = Some (PStr s)
    /\ Dict.get "rental_end" value = Some (PStr e)
    /\ strptime s = Ok ts /\ strptime e = Ok te
    /\ 0 <= sub_days te ts
    /\ (ts = te -> sub_days te ts = 0)
    /\ days_later (Z.to_nat (sub_days te ts)) ts = te
    /\ enrich value
       = enrich_prices (Dict.set "total_days" (PInt (sub_days te ts)) value)
    /\ (enrich value = (Raise OverflowError, [])
        \/ exists value',
             enrich value = (Ok value', [])
             /\ Dict.get "total_days" value' = Some (PInt (sub_days te ts)))
    /\ (forall p u z w,
          Dict.get "price_per_day" value = Some p -> as_int p = Some z ->
          Dict.get "units_rented" value = Some u -> as_int u = Some w ->
          sub_days te ts * z < 2 ^ 1023 ->
          exists value',
            enrich value = (Ok value', [])
            /\ Dict.get "total_days" value' = Some (PInt (sub_days te ts))).
Proof.
  intros Hchk. apply check_value_set_true in Hchk as [Hacc _].
  destruct (enrich_accepted value Hacc)
    as (s & e & ts & te & p & u & Hs & He & Ps & Pe & Hle & Hp & Pp & Hu & Pu & _ & Hen).
  exists s, e, ts, te.
  destruct (sub_days_exact ts te (strptime_valid _ _ Ps) (strptime_valid _ _ Pe) Hle)
    as [Hd Hn].
  repeat (split; [assumption|]).
  split; [intros ->; unfold sub_days; lia|].
  split; [exact Hn|].
  split; [exact (enrich_after_total_days value s e ts te Hs He Ps Pe)|].
  split.
  - destruct Hen as [Hov | (tp & r & q & _ & _ & Hen)]; [now left|].
    right. eexists. split; [exact Hen|].
    apply get_with_derived.
  - intros p' u' z w Hp' Hz Hu' Hw Hlt.
    assert (p' = p) by congruence. assert (u' = u) by congruence. subst p' u'.
    destruct (derive_ints s e ts te p u z w Ps Pe Hd Hz (positive_int p z Pp Hz)
                Hw (positive_int u w Pu Hw) Hlt) as (r & q & Hder).
    eexists. split.
    + rewrite (enrich_eq value _ _ _ _ Hs He Hp Hu), Hder. reflexivity.
    + apply get_with_derived.
Qed.

(** ** The file adapters *)

(** C6.  Handed an empty mapping, [save_to_json] logs one warning and
    leaves every file as it was; handed a non-empty one, it writes to the
    destination path the serialization with indent 2 (the path being one
    that can be opened for writing). *)
Theorem save_to_json_writes_iff_nonempty
    (json_dumps : Dict.dict record -> Z -> string) (writable : string -> bool)
    (filename : string) (data : Dict.dict record) (fs : filesystem) :
  (data = [] ->
   save_to_json json_dumps writable filename data fs
   = ((Ok tt, [mk_log WARNING "Data is invalid. Skipping file writing" []]), fs))
  /\ (data <> [] -> writable filename = true ->
      save_to_json json_dumps writable filename data fs
      = ((Ok tt, [mk_log DEBUG "Saving file %s" [ArgStr filename]]),
         Dict.set filename (json_dumps data 2) fs)).
Proof.
  split.
  - intros ->. reflexivity.
  - intros Hne Hw. destruct data as [|x data]; [contradiction|].
    unfold save_to_json, io_bind, io_lift, write_file, LOGGER.debug.
    rewrite Hw. reflexivity.
Qed.

(** C7 (evaluation at the failing input).  With no file at the input
    path, [open] raises [FileNotFoundError] before the [try] is entered:
    the handler that would log the error does not run, the log stays
    empty, and the exception leaves [load_rentals_file] and [main]
    uncaught.  No record is processed and no file is written. *)
Theorem missing_input_file_is_not_logged
    (json_loads : string -> option (Dict.dict record))
    (json_dumps : Dict.dict record -> Z -> string) (writable : string -> bool) :
  load_rentals_file json_loads "source.json" []
  = ((Raise (FileNotFoundError "source.json"), []), [])
  /\ main json_loads json_dumps writable "source.json" "out.json" []
     = ((Raise (FileNotFoundError "source.json"), []), []).
Proof. split; reflexivity. Qed.

(** ** Keys of the output *)

Lemma subseq_tail_cons (b : list string) :
  (forall a x, subseq (x :: a) b = true -> subseq a b = true)
  /\ (forall a y, subseq a b = true -> subseq a (y :: b) = true).
Proof.
  assert (Q : forall b,
             (forall a x, subseq (x :: a) b = true -> subseq a b = true) ->
             forall a y, subseq a b = true -> subseq a (y :: b) = true).
  { intros b0 P a y H. destruct a as [|x a]; [reflexivity|].
    cbn. destruct (String.eqb x y); [eapply P, H | exact H]. }
  induction b as [|y b [IHP IHQ]].
  - split; [intros a x H; discriminate H | apply Q; intros a x H; discriminate H].
  - assert (P : forall a x, subseq (x :: a) (y :: b) = true
                            -> subseq a (y :: b) = true).
    { intros a x. cbn [subseq]. destruct (String.eqb x y).
      - apply IHQ.
      - intros H. apply IHQ. eapply IHP, H. }
    split; [exact P | apply Q, P].
Qed.

Lemma subseq_skip (a b : list string) (y : string) :
  subseq a b = true -> subseq a (y :: b) = true.
Proof. apply subseq_tail_cons. Qed.

Lemma subseq_incl (b : list string) :
  forall a, subseq a b = true -> forall k, In k a -> In k b.
Proof.
  induction b as [|y b IH]; intros a H k Hk.
  - destruct a; [contradiction | discriminate].
  - destruct a as [|x a]; [contradiction|]. cbn in H.
    destruct (String.eqb x y) eqn:E.
    + apply String.eqb_eq in E. subst y. destruct Hk as [<- | Hk].
      * now left.
      * right. eapply IH; eauto.
    + right. eapply IH; eauto.
Qed.

Lemma get_Some_in {V} (k : string) (v : V) (d : Dict.dict V) :
  Dict.get k d = Some v -> In k (Dict.keys d).
Proof.
  intros H. destruct (in_dec string_dec k (Dict.keys d)) as [Hin | Hnin];
    [exact Hin|].
  apply get_None_not_in in Hnin. congruence.
Qed.

(** The loop appends, in the order of the items, the keys it keeps. *)
Lemma items_loop_keys (items : list (string * record)) :
  forall cleaned out log,
  NoDup (Dict.keys items) ->
  (forall k, In k (Dict.keys items) -> Dict.get k cleaned = None) ->
  items_loop items cleaned = (Ok out, log) ->
  exists ks,
    Dict.keys out = Dict.keys cleaned ++ ks
    /\ subseq ks (Dict.keys items) = true
    /\ forall k v', Dict.get k out = Some v' ->
         Dict.get k cleaned = Some v'
         \/ exists v, Dict.get k items = Some v /\ enrich v = (Ok v', []).
Proof.
  induction items as [|[key value] items IH]; intros cleaned out log Hnd Hfresh.
  - cbn. intros [= <- _]. exists []. rewrite app_nil_r. auto.
  - cbn [items_loop]. unfold bind.
    destruct (process_item key value cleaned) as [[c|x] l] eqn:Hp; [|discriminate].
    destruct (items_loop items c) as [[o|x] l'] eqn:Hl; [|discriminate].
    intros [= <- _]. cbn [Dict.keys map fst] in Hnd, Hfresh.
    inversion Hnd as [|? ? Hnotin Hnd']; subst.
    apply process_item_ok in Hp as [-> | (value' & Hen & ->)].
    + assert (Hf : forall k, In k (Dict.keys items) -> Dict.get k cleaned = None)
        by (intros k Hk; apply Hfresh; right; exact Hk).
      destruct (IH cleaned o l' Hnd' Hf Hl) as (ks & Hk & Hs & Hv).
      exists ks. split; [exact Hk|]. split; [now apply subseq_skip|].
      intros k v' Hget. destruct (Hv k v' Hget) as [H | (v & Hg & He)]; [now left|].
      right. exists v. split; [|exact He].
      cbn. destruct (String.eqb k key) eqn:E; [|exact Hg].
      apply String.eqb_eq in E. subst k. apply get_Some_in in Hg. contradiction.
    + assert (Hf : forall k, In k (Dict.keys items) ->
                     Dict.get k (Dict.set key value' cleaned) = None).
      { intros k Hk. rewrite get_set_other; [apply Hfresh; right; exact Hk|].
        apply String.eqb_neq. intros ->. contradiction. }
      destruct (IH (Dict.set key value' cleaned) o l' Hnd' Hf Hl)
        as (ks & Hk & Hs & Hv).
      rewrite keys_set_new in Hk by (apply Hfresh; left; reflexivity).
      exists (key :: ks). split; [now rewrite Hk, <- app_assoc|].
      split; [cbn; now rewrite String.eqb_refl|].
      intros k v' Hget. destruct (Hv k v' Hget) as [H | (v & Hg & He)].
      * destruct (String.eqb k key) eqn:E.
        -- apply String.eqb_eq in E. subst k. rewrite get_set_same in H.
           injection H as <-. right. exists value. split; [|exact Hen].
           cbn. now rewrite String.eqb_refl.
        -- rewrite get_set_other in H by exact E. now left.
      * right. exists v. split; [|exact He].
        cbn. destruct (String.eqb k key) eqn:E; [|exact Hg].
        apply String.eqb_eq in E. subst k. apply get_Some_in in Hg. contradiction.
Qed.

(** C8.  When the batch returns a mapping, its keys are keys of the
    input, in the order of the input, and each record stands under the
    key of the input record it was enriched from. *)
Theorem output_keys_follow_input
    (data out : Dict.dict record) (log : list log_entry) :
  Dict.wf data ->
  calculate_additional_fields data = (Ok out, log) ->
  subseq (Dict.keys out) (Dict.keys data) = true
  /\ (forall k, In k (Dict.keys out) -> In k (Dict.keys data))
  /\ (forall k v', Dict.get k out = Some v' ->
        exists v, Dict.get k data = Some v /\ enrich v = (Ok v', [])).
Proof.
  intros Hwf Hrun.
  destruct (items_loop_keys data [] out log Hwf (fun _ _ => eq_refl) Hrun)
    as (ks & Hk & Hs & Hv).
  cbn in Hk. subst ks.
  split; [exact Hs|]. split; [exact (subseq_incl _ _ Hs)|].
  intros k v' Hget. destruct (Hv k v' Hget) as [H | H]; [discriminate H | exact H].
Qed.

(** ** Enrichment run again *)

Lemma accepted_with_derived (value : record) (x : pyval * pyval * pyval * pyval) :
  accepted value -> accepted (with_derived value x).
Proof.
  intros [Hp Hc Hd Hu].
  constructor; rewrite ?get_with_derived_base by (cbn; tauto); assumption.
Qed.

(** C9.  For a record that passed validation and was enriched: the
    enriched record passes validation again and enriching it again
    returns it unchanged; and any record with the same [rental_start],
    [rental_end], [price_per_day] and [units_rented], whatever else it
    holds, gets the same four derived values. *)
Theorem enrichment_idempotent
    (value value' : record) (log log' : list log_entry) :
  check_value_set value = (Ok true, log) ->
  enrich value = (Ok value', log') ->
  check_value_set value' = (Ok true, log)
  /\ enrich value' = (Ok value', log')
  /\ forall value2,
       (forall k, In k base_keys -> Dict.get k value2 = Dict.get k value) ->
       exists value2',
         enrich value2 = (Ok value2', log')
         /\ forall k, In k derived_keys ->
              Dict.get k value2' = Dict.get k value'.
Proof.
  intros Hchk Hen. apply check_value_set_true in Hchk as [Hacc ->].
  destruct (enrich_accepted value Hacc)
    as (s & e & ts & te & p & u & Hs & He & Ps & Pe & Hle & Hp & _ & Hu & _ & _ & Hout).
  destruct Hout as [Hov | (tp & r & q & Hd & _ & Hen')]; [congruence|].
  set (x := (PInt (sub_days te ts), tp, PFloat r, PFloat q)) in *.
  assert (Ev : value' = with_derived value x) by congruence.
  assert (El : log' = []) by congruence.
  subst value' log'. clear Hen.
  split; [apply accepted_check_value_set, accepted_with_derived, Hacc|].
  split.
  - rewrite (enrich_eq (with_derived value x) (PStr s) (PStr e) p u);
      rewrite ?get_with_derived_base by (cbn; tauto); try assumption.
    rewrite Hd. now rewrite with_derived_twice.
  - intros value2 Hsame. exists (with_derived value2 x). split.
    + rewrite (enrich_eq value2 (PStr s) (PStr e) p u);
        rewrite ?Hsame by (cbn; tauto); try assumption.
      now rewrite Hd.
    + intros k Hk.
      destruct (get_with_derived value (PInt (sub_days te ts)) tp (PFloat r) (PFloat q))
        as (A1 & A2 & A3 & A4).
      destruct (get_with_derived value2 (PInt (sub_days te ts)) tp (PFloat r) (PFloat q))
        as (B1 & B2 & B3 & B4).
      cbn in Hk. destruct Hk as [<- | [<- | [<- | [<- | []]]]]; unfold x; congruence.
Qed.

(** ** Arithmetic after validation *)



(** ** The theorems at the records of the examples *)

(** Example 3: the record with its dates backward is decided by check 7. *)
Lemma check_value_set_order_witness :
  spec_validate rental_backward = Some (Reject 7 "invalid rental dates")
  /\ check_value_set rental_backward
     = outcome (Reject 7 "invalid rental dates")
  /\ In 7%nat [1; 2; 3; 4; 5; 7; 8; 9]%nat.
Proof.
  split; [reflexivity|].
  apply (check_value_set_order rental_backward
           (Reject 7 "invalid rental dates")).
  reflexivity.
Defined.

(** Example 4, between two records that are accepted. *)
Lemma unparseable_date_aborts_run_witness :
  reaches_parse rental_iso_date "2020-01-01" "01/03/20"
  /\ fst (calculate_additional_fields
            ([("A", rental_A)] ++ ("B", rental_iso_date) :: [("C", rental_A)]))
     = Raise (SystemExit 0)
  /\ main (one_json_loads
             ([("A", rental_A)] ++ ("B", rental_iso_date) :: [("C", rental_A)]))
       flat_json_dumps any_path "source.json" "out.json"
       [("source.json", "")]
     = ((Raise (SystemExit 0),
         snd (calculate_additional_fields [("A", rental_A)])
         ++ debug_before 6
         ++ [mk_log ERROR "%s" [ArgExn (ValueError (NoMatch "2020-01-01"))]]),
        [("source.json", "")]).
Proof.
  assert (Hr : reaches_parse rental_iso_date "2020-01-01" "01/03/20").
  { constructor.
    - exists (PInt 10). repeat split; reflexivity.
    - exists (PStr "X"). repeat split; reflexivity.
    - split; [reflexivity | discriminate].
    - split; [reflexivity | discriminate]. }
  split; [exact Hr|].
  destruct (unparseable_date_aborts_run
              [("A", rental_A)] [("C", rental_A)] "B" rental_iso_date
              "2020-01-01" "01/03/20" (NoMatch "2020-01-01")
              (returned (calculate_additional_fields [("A", rental_A)]) [])
              (snd (calculate_additional_fields [("A", rental_A)]))
              ltac:(vm_compute; reflexivity) Hr eq_refl)
    as (_ & Hrun & Hmain).
  split.
  - rewrite Hrun. reflexivity.
  - apply Hmain with (content := ""); reflexivity.
Defined.

Lemma total_days_is_day_difference_witness :
  check_value_set rental_A = (Ok true, accept_log)
  /\ exists s e ts te,
       Dict.get "rental_start" rental_A = Some (PStr s)
       /\ Dict.get "rental_end" rental_A = Some (PStr e)
       /\ strptime s = Ok ts /\ strptime e = Ok te
       /\ 0 <= sub_days te ts
       /\ (ts = te -> sub_days te ts = 0)
       /\ days_later (Z.to_nat (sub_days te ts)) ts = te
       /\ enrich rental_A
          = enrich_prices
              (Dict.set "total_days" (PInt (sub_days te ts)) rental_A)
       /\ (enrich rental_A = (Raise OverflowError, [])
           \/ exists value',
                enrich rental_A = (Ok value', [])
                /\ Dict.get "total_days" value' = Some (PInt (sub_days te ts)))
       /\ (forall p u z w,
             Dict.get "price_per_day" rental_A = Some p -> as_int p = Some z ->
             Dict.get "units_rented" rental_A = Some u -> as_int u = Some w ->
             sub_days te ts * z < 2 ^ 1023 ->
             exists value',
               enrich rental_A = (Ok value', [])
               /\ Dict.get "total_days" value'
                  = Some (PInt (sub_days te ts))).
Proof.
  split; [reflexivity|].
  apply (total_days_is_day_difference rental_A accept_log). reflexivity.
Defined.

Lemma save_to_json_writes_iff_nonempty_witness :
  save_to_json flat_json_dumps any_path "out.json" [] [("source.json", "")]
  = ((Ok tt, [mk_log WARNING "Data is invalid. Skipping file writing" []]),
     [("source.json", "")])
  /\ save_to_json flat_json_dumps any_path "out.json" [("A", rental_A)]
       [("source.json", "")]
     = ((Ok tt, [mk_log DEBUG "Saving file %s" [ArgStr "out.json"]]),
        [("source.json", ""); ("out.json", "{}")]).
Proof.
  split.
  - apply (proj1 (save_to_json_writes_iff_nonempty flat_json_dumps any_path
                    "out.json" [] [("source.json", "")])).
    reflexivity.
  - apply (proj2 (save_to_json_writes_iff_nonempty flat_json_dumps any_path
                    "out.json" [("A", rental_A)] [("source.json", "")])).
    + discriminate.
    + reflexivity.
Defined.

Lemma three_rentals_wf : Dict.wf three_rentals.
Proof.
  unfold Dict.wf, three_rentals; cbn.
  repeat constructor; cbn; intros H;
    repeat (destruct H as [H | H]; [discriminate H|]); exact H.
Defined.

Lemma output_keys_follow_input_witness :
  Dict.wf three_rentals
  /\ Dict.keys (returned (calculate_additional_fields three_rentals) [])
     = ["A"; "C"]
  /\ subseq ["A"; "C"] (Dict.keys three_rentals) = true.
Proof.
  split; [exact three_rentals_wf|]. split; [reflexivity|].
  apply (proj1 (output_keys_follow_input three_rentals
                  (returned (calculate_additional_fields three_rentals) [])
                  (snd (calculate_additional_fields three_rentals))
                  three_rentals_wf
                  ltac:(vm_compute; reflexivity))).
Defined.

Lemma enrichment_idempotent_witness :
  check_value_set rental_A = (Ok true, accept_log)
  /\ check_value_set (returned (enrich rental_A) []) = (Ok true, accept_log)
  /\ enrich (returned (enrich rental_A) [])
     = (Ok (returned (enrich rental_A) []), []).
Proof.
  split; [reflexivity|].
  destruct (enrichment_idempotent rental_A (returned (enrich rental_A) [])
              accept_log [] eq_refl ltac:(vm_compute; reflexivity))
    as (H1 & H2 & _).
  split; [exact H1 | exact H2].
Defined.


(** * Further properties *)

(** ** Every outcome of the validator *)

Ltac decided d := left; exists d; split; [reflexivity | cbn; tauto].

Ltac decided_at n :=
  first [ left; eexists (Reject n _); split; [reflexivity | cbn; tauto]
        | left; eexists (Abort n _); split; [reflexivity | cbn; tauto]
        | decided (Fault n) ].

Ltac missing k n :=
  right; exists k, n; split; [reflexivity | cbn; tauto].

(** The validator returns as one of the decisions, or raises [KeyError]
    for one of its five fields. *)
Lemma check_value_set_cases (value : record) :
  (exists d, check_value_set value = outcome d
             /\ match d with
                | Accept => accepted value
                | _ => True
                end)
  \/ (exists k n, check_value_set value = (Raise (KeyError k), debug_before n)
                  /\ In k field_keys).
Proof.
  unfold check_value_set. unfold_m.
  destruct (Dict.get "price_per_day" value) as [p|] eqn:Hp;
    [|missing "price_per_day" 1%nat].
  destruct (truthy p) eqn:Tp; [|decided_at 1%nat].
  destruct (ge0 p) as [[|]|x] eqn:Gp;
    [|decided_at 2%nat|apply ge0_raises in Gp as ->; decided_at 2%nat].
  destruct (Dict.get "product_code" value) as [c|] eqn:Hc;
    [|missing "product_code" 3%nat].
  destruct (truthy c) eqn:Tc; [|decided_at 3%nat].
  destruct (Dict.get "rental_start" value) as [vs|] eqn:Hs;
    [|missing "rental_start" 4%nat].
  destruct (truthy vs) eqn:Ts; [|decided_at 4%nat].
  destruct (Dict.get "rental_end" value) as [ve|] eqn:He;
    [|missing "rental_end" 5%nat].
  destruct (truthy ve) eqn:Te; [|decided_at 5%nat].
  destruct (strptime_obj vs) as [ts|x] eqn:Ps;
    [|apply strptime_obj_raises in Ps as [-> | [w ->]]; decided_at 6%nat].
  destruct (strptime_obj ve) as [te|x] eqn:Pe;
    [|apply strptime_obj_raises in Pe as [-> | [w ->]]; decided_at 6%nat].
  destruct (datetime_le ts te) eqn:Hle; [|decided_at 7%nat].
  destruct (Dict.get "units_rented" value) as [u|] eqn:Hu;
    [|missing "units_rented" 8%nat].
  destruct (truthy u) eqn:Tu; [|decided_at 8%nat].
  destruct (ge0 u) as [[|]|x] eqn:Gu;
    [|decided_at 9%nat|apply ge0_raises in Gu as ->; decided_at 9%nat].
  apply strptime_obj_ok in Ps as (s & -> & Ps).
  apply strptime_obj_ok in Pe as (e & -> & Pe).
  left. exists Accept. split; [reflexivity|].
  constructor.
  - exists p. auto.
  - exists c. auto.
  - exists s, e, ts, te. auto 6.
  - exists u. auto.
Qed.

(** ** What the handlers emit *)

Lemma emits_app (level : loglevel) (a b : list log_entry) :
  emits level (a ++ b) = emits level a ++ emits level b.
Proof. apply filter_app. Qed.

Lemma console_debug_before (n : nat) : CONSOLE_HANDLER (debug_before n) = [].
Proof. do 9 (destruct n as [|n]; [reflexivity|]). reflexivity. Qed.

Lemma file_handler_all (log : list log_entry) : FILE_HANDLER log = log.
Proof.
  unfold FILE_HANDLER, emits. induction log as [|en log IH]; [reflexivity|].
  cbn [filter].
  replace (levelno DEBUG <=? levelno (lvl en)) with true
    by (destruct (lvl en); reflexivity).
  f_equal. exact IH.
Qed.

(** ** Every outcome of one turn of the loop *)

Lemma process_item_turn (key : string) (value : record)
    (cleaned : Dict.dict record) :
  turn key value cleaned (process_item key value cleaned).
Proof.
  destruct (check_value_set_cases value) as [(d & Hd & Hacc) | (k & n & Hk & Hin)].
  - destruct d as [|n condition|n w|n].
    + destruct (process_item_accepted key value cleaned Hacc)
        as [H | (value' & Hen & H)]; rewrite H.
      * apply turn_overflow; [exact Hacc|].
        destruct (enrich_accepted value Hacc)
          as (s & e & ts & te & p & u & _ & _ & _ & _ & _ & _ & _ & _ & _ & _ & Hout).
        destruct Hout as [Hov | (tp & r & q & _ & _ & Hen)]; [exact Hov|].
        unfold process_item in H.
        rewrite (accepted_check_value_set value Hacc), Hen in H. discriminate H.
      * now apply turn_added.
    + replace (process_item key value cleaned)
        with (Ok cleaned,
              debug_before n ++ [warning_line condition; skipped_line value]).
      * now apply turn_skipped.
      * unfold process_item. rewrite Hd. cbn. now rewrite <- app_assoc.
    + replace (process_item key value cleaned)
        with (@Raise (Dict.dict record) (SystemExit 0),
              debug_before n ++ [error_line w]).
      * now apply turn_exit.
      * unfold process_item. rewrite Hd. reflexivity.
    + replace (process_item key value cleaned)
        with (@Raise (Dict.dict record) TypeError, debug_before n).
      * now apply turn_type_error.
      * unfold process_item. rewrite Hd. reflexivity.
  - replace (process_item key value cleaned)
      with (@Raise (Dict.dict record) (KeyError k), debug_before n).
    + now apply turn_key_error.
    + unfold process_item. rewrite Hk. reflexivity.
Qed.

(** ** The batch, by induction on its items *)

Lemma set_new {V} (k : string) (v : V) (d : Dict.dict V) :
  Dict.get k d = None -> Dict.set k v d = d ++ [(k, v)].
Proof.
  induction d as [|[k' v'] d IH]; cbn; [reflexivity|].
  destruct (String.eqb k k'); [discriminate|].
  intros H. now rewrite IH.
Qed.

Lemma kept_added (key : string) (value value' : record) :
  accepted value -> enrich value = (Ok value', []) ->
  kept (key, value) = [(key, value')].
Proof.
  intros Hacc Hen. unfold kept. cbn [fst snd].
  now rewrite (accepted_check_value_set value Hacc), Hen.
Qed.

Lemma kept_skipped (key : string) (value : record) (n : nat) (c : string) :
  check_value_set value = outcome (Reject n c) -> kept (key, value) = [].
Proof. intros H. unfold kept. cbn [fst snd]. now rewrite H. Qed.

(** The two turns that return. *)
Lemma turn_ok (key : string) (value : record) (cleaned c : Dict.dict record)
    (l : list log_entry) :
  turn key value cleaned (Ok c, l) ->
  (exists value', accepted value /\ enrich value = (Ok value', [])
                  /\ c = Dict.set key value' cleaned
                  /\ CONSOLE_HANDLER l = [])
  \/ (exists n condition,
        check_value_set value = outcome (Reject n condition)
        /\ c = cleaned
        /\ CONSOLE_HANDLER l = [warning_line condition]).
Proof.
  intros T. inversion T as [value' Hacc Hen | | n cond Hc | | |]; subst.
  - left. exists value'. auto.
  - right. exists n, cond. split; [exact Hc|]. split; [reflexivity|].
    unfold CONSOLE_HANDLER. rewrite emits_app.
    pose proof (console_debug_before n) as Hdb. unfold CONSOLE_HANDLER in Hdb.
    now rewrite Hdb.
Qed.

(** A batch that returns has logged one warning for each record it left
    out and nothing above a warning; from distinct keys, its mapping is
    what was there before followed by what each item contributes. *)
Lemma items_loop_ok (items : list (string * record)) :
  forall cleaned out log,
  items_loop items cleaned = (Ok out, log) ->
  (List.length (CONSOLE_HANDLER log) + List.length (flat_map kept items)
   = List.length items)%nat
  /\ Forall (fun en => lvl en = WARNING) (CONSOLE_HANDLER log)
  /\ (NoDup (Dict.keys items) ->
      (forall k, In k (Dict.keys items) -> Dict.get k cleaned = None) ->
      out = cleaned ++ flat_map kept items).
Proof.
  induction items as [|[key value] items IH]; intros cleaned out log.
  - cbn. intros [= <- <-]. cbn. rewrite app_nil_r. auto.
  - cbn [items_loop]. unfold bind.
    pose proof (process_item_turn key value cleaned) as T.
    destruct (process_item key value cleaned) as [[c|x] l] eqn:Hp; [|discriminate].
    destruct (items_loop items c) as [[o|x] l'] eqn:Hl; [|discriminate].
    intros [= <- <-].
    destruct (IH c o l' Hl) as (Hn & Hw & Ho).
    assert (Happ : CONSOLE_HANDLER (l ++ l')
                   = CONSOLE_HANDLER l ++ CONSOLE_HANDLER l')
      by apply emits_app.
    rewrite Happ. cbn [flat_map]. rewrite !length_app.
    destruct (turn_ok key value cleaned c l T)
      as [(value' & Hacc & Hen & -> & ->) | (n & cond & Hc & -> & ->)].
    + rewrite (kept_added key value value' Hacc Hen). cbn [app List.length].
      split; [lia|]. split; [exact Hw|].
      intros Hnd Hfresh. cbn [Dict.keys map fst] in Hnd, Hfresh.
      inversion Hnd as [|? ? Hnotin Hnd']; subst.
      rewrite Ho.
      * rewrite set_new by (apply Hfresh; left; reflexivity).
        now rewrite <- app_assoc.
      * exact Hnd'.
      * intros k Hk. rewrite get_set_other; [apply Hfresh; right; exact Hk|].
        apply String.eqb_neq. intros ->. contradiction.
    + rewrite (kept_skipped key value n cond Hc). cbn [app List.length].
      split; [lia|]. split; [constructor; [reflexivity | exact Hw]|].
      intros Hnd Hfresh. cbn [Dict.keys map fst] in Hnd, Hfresh.
      inversion Hnd as [|? ? Hnotin Hnd']; subst.
      apply Ho; [exact Hnd'|]. intros k Hk. apply Hfresh. right. exact Hk.
Qed.

Lemma items_loop_raises (items : list (string * record)) :
  forall cleaned e log,
  items_loop items cleaned = (Raise e, log) ->
  uncaught e
  \/ (e = SystemExit 0 /\ exists log0 w, log = log0 ++ [error_line w]).
Proof.
  induction items as [|[key value] items IH]; intros cleaned e log.
  - discriminate.
  - cbn [items_loop]. unfold bind.
    pose proof (process_item_turn key value cleaned) as T.
    destruct (process_item key value cleaned) as [[c|x] l] eqn:Hp.
    + destruct (items_loop items c) as [[o|x] l'] eqn:Hl; [discriminate|].
      intros [= <- <-].
      destruct (IH c x l' Hl) as [H | (-> & log0 & w & ->)]; [now left|].
      right. split; [reflexivity|]. exists (l ++ log0), w. now rewrite app_assoc.
    + intros [= <- <-].
      inversion T as [| | | n w Hc | n Hc | k n Hin Hc]; subst.
      * left. exact I.
      * right. split; [reflexivity|]. eauto.
      * left. exact I.
      * left. exact Hin.
Qed.

Lemma negative_number_checks (v : pyval) :
  negative_number v -> truthy v = true /\ ge0 v = Ok false.
Proof.
  destruct v as [|b|z|f|s|l|d]; cbn; try contradiction.
  - intros Hz. split.
    + apply negb_true_iff, Z.eqb_neq. lia.
    + f_equal. apply Z.leb_gt. exact Hz.
  - intros [[Hs Hn] | Hn]; destruct f as [s|s| |s m e]; cbn in *;
      try contradiction; try discriminate; subst; auto.
Qed.

(** X1.  A price that is a number below zero, or NaN, is rejected at
    check 2 with false and the warning [invalid price_per_day], whatever
    the other fields hold or lack; and a record whose price or unit count
    is such a number is never accepted and contributes nothing. *)
Theorem negative_price_is_rejected (key : string) (value : record) (p : pyval) :
  negative_number p ->
  (Dict.get "price_per_day" value = Some p ->
   check_value_set value = outcome (Reject 2 "invalid price_per_day"))
  /\ (Dict.get "price_per_day" value = Some p
      \/ Dict.get "units_rented" value = Some p ->
      fst (check_value_set value) <> Ok true /\ kept (key, value) = []).
Proof.
  intros Hneg. destruct (negative_number_checks p Hneg) as [Tp Gp]. split.
  - intros Hp. unfold check_value_set. unfold_m. rewrite Hp, Tp, Gp. reflexivity.
  - intros Hget.
    assert (Hno : fst (check_value_set value) <> Ok true).
    { intros Hok. destruct (check_value_set value) as [r l] eqn:Hchk.
      cbn in Hok. subst r. apply check_value_set_true in Hchk as [Hacc _].
      destruct Hacc as [(p' & Hp' & _ & Gp') _ _ (u' & Hu' & _ & Gu')].
      destruct Hget as [H | H]; congruence. }
    split; [exact Hno|].
    unfold kept. cbn [fst snd].
    destruct (check_value_set value) as [[[|]|x] l]; try reflexivity.
    now contradiction Hno.
Qed.

(** X2.  When the batch raises, it raises [SystemExit] with code 0 right
    after logging a [ValueError] as an error, or lets through a [KeyError]
    for one of the five fields, a [TypeError] or an [OverflowError]: never
    a [ValueError], an [AssertionError] or a [ZeroDivisionError], and never
    an exit code other than 0. *)
Theorem batch_exceptions
    (data : Dict.dict record) (e : exn) (log : list log_entry) :
  calculate_additional_fields data = (Raise e, log) ->
  uncaught e
  \/ (e = SystemExit 0
      /\ exists log0 w,
           log = log0 ++ [mk_log ERROR "%s" [ArgExn (ValueError w)]]).
Proof. apply items_loop_raises. Qed.

(** X3.  When the batch returns, its mapping is, item by item in the
    order of the input, the enrichment of each accepted record under its
    own key and nothing for the others. *)
Theorem batch_output_is_kept_records
    (data out : Dict.dict record) (log : list log_entry) :
  Dict.wf data ->
  calculate_additional_fields data = (Ok out, log) ->
  out = flat_map kept data.
Proof.
  intros Hwf Hrun.
  destruct (items_loop_ok data [] out log Hrun) as (_ & _ & Ho).
  apply Ho; [exact Hwf | reflexivity].
Qed.

(** X4.  A record the validator rejects can be taken out of the input, at
    any place, without changing what the batch returns or raises. *)
Theorem rejected_record_can_be_dropped
    (pre post : Dict.dict record) (key : string) (value : record) :
  fst (check_value_set value) = Ok false ->
  fst (calculate_additional_fields (pre ++ (key, value) :: post))
  = fst (calculate_additional_fields (pre ++ post)).
Proof.
  intros Hrej. unfold calculate_additional_fields.
  rewrite !items_loop_app. unfold bind.
  destruct (items_loop pre []) as [[c|x] l]; [|reflexivity].
  cbn [items_loop]. unfold bind.
  assert (Hp : exists l', process_item key value c = (Ok c, l')).
  { unfold process_item. destruct (check_value_set value) as [r l0].
    cbn in Hrej. subst r. cbn. eauto. }
  destruct Hp as [l' ->].
  destruct (items_loop post c) as [r l'']. reflexivity.
Qed.

(** ** What enrichment leaves in place *)

Lemma enrich_ok_inv (value value' : record) (l : list log_entry) :
  enrich value = (Ok value', l) ->
  l = []
  /\ exists vs ve p u x,
       Dict.get "rental_start" value = Some vs
       /\ Dict.get "rental_end" value = Some ve
       /\ Dict.get "price_per_day" value = Some p
       /\ Dict.get "units_rented" value = Some u
       /\ derive vs ve p u = Ok x
       /\ value' = with_derived value x.
Proof.
  destruct (Dict.get "rental_start" value) as [vs|] eqn:Hs.
  2:{ unfold enrich, getitem. rewrite Hs. discriminate. }
  destruct (Dict.get "rental_end" value) as [ve|] eqn:He.
  2:{ unfold enrich, getitem. rewrite Hs, He. run.
      destruct (strptime_obj vs); discriminate. }
  destruct (Dict.get "price_per_day" value) as [p|] eqn:Hp.
  2:{ unfold enrich, getitem. rewrite Hs, He. run.
      destruct (strptime_obj vs); [|discriminate]. run.
      destruct (strptime_obj ve); [|discriminate]. run.
      dict_get. rewrite Hp. discriminate. }
  destruct (Dict.get "units_rented" value) as [u|] eqn:Hu.
  2:{ unfold enrich, getitem. rewrite Hs, He. run.
      destruct (strptime_obj vs); [|discriminate]. run.
      destruct (strptime_obj ve); [|discriminate]. run.
      dict_get. rewrite Hp. run.
      destruct (py_mul _ p) as [tp|]; [|discriminate]. run. dict_get. run.
      destruct (math_sqrt tp); [|discriminate]. run. dict_get. rewrite Hu.
      discriminate. }
  rewrite (enrich_eq value vs ve p u Hs He Hp Hu).
  destruct (derive vs ve p u) as [x|e] eqn:Hd; [|discriminate].
  intros [= <- <-]. split; [reflexivity|]. exists vs, ve, p, u, x. auto 7.
Qed.

Lemma get_with_derived_other (value : record) (x : pyval * pyval * pyval * pyval)
    (k : string) :
  ~ In k derived_keys -> Dict.get k (with_derived value x) = Dict.get k value.
Proof.
  intros Hk. destruct x as [[[d p] r] q]. cbn [with_derived].
  rewrite !get_set_other; [reflexivity | | | |];
    apply String.eqb_neq; intros ->; apply Hk; cbn; tauto.
Qed.

(** X6.  Enrichment logs nothing and changes no field but the four it
    derives: every other key of the record keeps its value, and on a
    record that had none of the four, the keys of the result are the keys
    it had, in their order, followed by [total_days], [total_price],
    [sqrt_total_price], [unit_cost]. *)
Theorem enrich_keeps_other_fields
    (value value' : record) (l : list log_entry) :
  enrich value = (Ok value', l) ->
  l = []
  /\ (forall k, ~ In k derived_keys -> Dict.get k value' = Dict.get k value)
  /\ ((forall k, In k derived_keys -> Dict.get k value = None) ->
      Dict.keys value' = Dict.keys value ++ derived_keys).
Proof.
  intros Hen. apply enrich_ok_inv in Hen
    as (-> & vs & ve & p & u & x & _ & _ & _ & _ & _ & ->).
  split; [reflexivity|]. split.
  - intros k Hk. now apply get_with_derived_other.
  - intros Hnone. destruct x as [[[d tp] r] q]. cbn [with_derived].
    rewrite !keys_set_new.
    + unfold derived_keys. now rewrite <- !app_assoc.
    + apply Hnone. cbn. tauto.
    + dict_get. apply Hnone. cbn. tauto.
    + dict_get. apply Hnone. cbn. tauto.
    + dict_get. apply Hnone. cbn. tauto.
Qed.

(** ** The records of the output *)

Lemma get_in {V} (k : string) (v : V) (d : Dict.dict V) :
  Dict.get k d = Some v -> In (k, v) d.
Proof.
  induction d as [|[k' v'] d IH]; cbn; [discriminate|].
  destruct (String.eqb k k') eqn:E.
  - apply String.eqb_eq in E. subst k'. intros [= ->]. now left.
  - intros H. right. now apply IH.
Qed.

Lemma in_get {V} (k : string) (v : V) (d : Dict.dict V) :
  NoDup (Dict.keys d) -> In (k, v) d -> Dict.get k d = Some v.
Proof.
  induction d as [|[k' v'] d IH]; cbn; [contradiction|].
  intros Hnd [[= -> ->] | Hin].
  - now rewrite String.eqb_refl.
  - inversion Hnd as [|? ? Hnotin Hnd']; subst.
    destruct (String.eqb k k') eqn:E.
    + apply String.eqb_eq in E. subst k'. exfalso. apply Hnotin.
      change k with (fst (k, v)). now apply in_map.
    + now apply IH.
Qed.

Lemma kept_inv (item : string * record) (k : string) (v' : record) :
  In (k, v') (kept item) ->
  k = fst item /\ accepted (snd item)
  /\ exists l, enrich (snd item) = (Ok v', l).
Proof.
  unfold kept.
  destruct (check_value_set (snd item)) as [[[|]|x] l] eqn:Hchk;
    try contradiction.
  apply check_value_set_true in Hchk as [Hacc _].
  destruct (enrich (snd item)) as [[value'|x] l'] eqn:Hen; try contradiction.
  intros [[= <- <-] | []]. eauto.
Qed.

(** X5.  Every record of a returned mapping comes from the input record
    under the same key, which the validator accepted; it passes validation
    itself; and its four derived fields are the values derived from its
    own [rental_start], [rental_end], [price_per_day] and [units_rented]. *)
Theorem output_records_are_consistent
    (data out : Dict.dict record) (log : list log_entry)
    (k : string) (v' : record) :
  Dict.wf data ->
  calculate_additional_fields data = (Ok out, log) ->
  Dict.get k out = Some v' ->
  (exists v, Dict.get k data = Some v /\ accepted v)
  /\ check_value_set v' = (Ok true, accept_log)
  /\ exists vs ve p u d tp r q,
       Dict.get "rental_start" v' = Some vs
       /\ Dict.get "rental_end" v' = Some ve
       /\ Dict.get "price_per_day" v' = Some p
       /\ Dict.get "units_rented" v' = Some u
       /\ derive vs ve p u = Ok (d, tp, r, q)
       /\ Dict.get "total_days" v' = Some d
       /\ Dict.get "total_price" v' = Some tp
       /\ Dict.get "sqrt_total_price" v' = Some r
       /\ Dict.get "unit_cost" v' = Some q.
Proof.
  intros Hwf Hrun Hget.
  destruct (items_loop_ok data [] out log Hrun) as (_ & _ & Ho).
  rewrite (Ho Hwf (fun _ _ => eq_refl)) in Hget. cbn [app] in Hget.
  apply get_in, in_flat_map in Hget as ([key value] & Hin & Hk).
  apply kept_inv in Hk as (-> & Hacc & l & Hen). cbn [fst snd] in *.
  apply enrich_ok_inv in Hen
    as (_ & vs & ve & p & u & x & Hs & He & Hp & Hu & Hd & ->).
  split; [exists value; split; [now apply in_get | exact Hacc]|].
  split; [apply accepted_check_value_set, accepted_with_derived, Hacc|].
  destruct x as [[[d tp] r] q].
  exists vs, ve, p, u, d, tp, r, q.
  rewrite !get_with_derived_base by (cbn; tauto).
  destruct (get_with_derived value d tp r q) as (G1 & G2 & G3 & G4).
  auto 10.
Qed.

(** X7.  On a batch that returns, the console handler, set to [WARNING],
    shows exactly one line for each record left out, each of them a
    warning, and the file handler, set to [DEBUG], holds every line. *)
Theorem console_shows_one_warning_per_skipped_record
    (data out : Dict.dict record) (log : list log_entry) :
  Dict.wf data ->
  calculate_additional_fields data = (Ok out, log) ->
  (List.length (CONSOLE_HANDLER log) + List.length out
   = List.length data)%nat
  /\ Forall (fun en => lvl en = WARNING) (CONSOLE_HANDLER log)
  /\ FILE_HANDLER log = log.
Proof.
  intros Hwf Hrun.
  destruct (items_loop_ok data [] out log Hrun) as (Hn & Hw & Ho).
  rewrite (Ho Hwf (fun _ _ => eq_refl)). cbn [app].
  split; [exact Hn|]. split; [exact Hw | apply file_handler_all].
Qed.

(** ** The program from end to end *)

Section Main.

Variable json_loads : string -> option (Dict.dict record).
Variable json_dumps : Dict.dict record -> Z -> string.
Variable writable : string -> bool.

Lemma main_loaded (input output content : string) (data : Dict.dict record)
    (fs : filesystem) :
  Dict.get input fs = Some content -> json_loads content = Some data ->
  main json_loads json_dumps writable input output fs =
  match calculate_additional_fields data with
  | (Ok out, log) =>
      let '((r, l), fs') := save_to_json json_dumps writable output out fs in
      ((r, log ++ l), fs')
  | (Raise e, log) => ((Raise e, log), fs)
  end.
Proof.
  intros Hin Hload.
  unfold main, load_rentals_file, io_bind, io_lift, open_r, json_load.
  rewrite Hin. cbn. rewrite Hload. cbn.
  destruct (calculate_additional_fields data) as [[out|e] log]; [|reflexivity].
  destruct (save_to_json json_dumps writable output out fs) as [[r l] fs'].
  reflexivity.
Qed.

(** X9.  When the input file exists and parses, the batch returns a
    mapping that is not empty and the output path can be opened, [main]
    returns normally, its log is the log of the batch followed by the line
    [Saving file], and the output file holds the mapping serialized with
    indent 2. *)
Theorem main_end_to_end
    (input output content : string) (data out : Dict.dict record)
    (log : list log_entry) (fs : filesystem) :
  Dict.get input fs = Some content ->
  json_loads content = Some data ->
  calculate_additional_fields data = (Ok out, log) ->
  out <> [] ->
  writable output = true ->
  main json_loads json_dumps writable input output fs
  = ((Ok tt, log ++ [mk_log DEBUG "Saving file %s" [ArgStr output]]),
     Dict.set output (json_dumps out 2) fs).
Proof.
  intros Hin Hload Hrun Hne Hw.
  rewrite (main_loaded input output content data fs Hin Hload), Hrun.
  destruct out as [|item out]; [contradiction|].
  unfold save_to_json, io_bind, io_lift, write_file, LOGGER.debug.
  rewrite Hw. reflexivity.
Qed.

(** X10.  When the validator rejects every record of the input (as when
    the input is the empty object), the batch returns the empty mapping
    and [main] ends normally without writing: the console shows one
    warning for each record and a last one, [Data is invalid. Skipping
    file writing]. *)
Theorem all_rejected_writes_nothing
    (input output content : string) (data : Dict.dict record)
    (fs : filesystem) :
  Dict.get input fs = Some content ->
  json_loads content = Some data ->
  (forall item, In item data -> fst (check_value_set (snd item)) = Ok false) ->
  exists log,
    calculate_additional_fields data = (Ok [], log)
    /\ List.length (CONSOLE_HANDLER log) = List.length data
    /\ main json_loads json_dumps writable input output fs
       = ((Ok tt,
           log ++ [mk_log WARNING "Data is invalid. Skipping file writing" []]),
          fs).
Proof.
  intros Hin Hload Hrej.
  assert (Hrun : exists log,
             items_loop data [] = (Ok [], log)
             /\ List.length (CONSOLE_HANDLER log) = List.length data).
  { clear Hin Hload. induction data as [|[key value] data IH].
    - exists []. split; reflexivity.
    - destruct IH as (log & Hl & Hn); [intros item Hi; apply Hrej; now right|].
      pose proof (Hrej (key, value) (or_introl eq_refl)) as Hv. cbn [snd] in Hv.
      pose proof (process_item_turn key value []) as T.
      assert (Hp : exists l, process_item key value [] = (Ok [], l)).
      { unfold process_item. destruct (check_value_set value) as [r l0].
        cbn in Hv. subst r. cbn. eauto. }
      destruct Hp as [l Hp]. rewrite Hp in T.
      destruct (turn_ok key value [] [] l T)
        as [(value' & Hacc & _) | (n & cond & _ & _ & Hc)].
      + rewrite (accepted_check_value_set value Hacc) in Hv. discriminate Hv.
      + exists (l ++ log). cbn [items_loop]. unfold bind. rewrite Hp, Hl.
        split; [reflexivity|].
        unfold CONSOLE_HANDLER in *. rewrite emits_app, length_app, Hc, Hn.
        reflexivity. }
  destruct Hrun as (log & Hrun & Hn). exists log.
  split; [exact Hrun|]. split; [exact Hn|].
  rewrite (main_loaded input output content data fs Hin Hload).
  unfold calculate_additional_fields. rewrite Hrun. reflexivity.
Qed.

End Main.

(** ** The window of two-digit years *)

Lemma digit_range (c : ascii) (a : Z) : digit c = Some a -> 0 <= a <= 9.
Proof.
  unfold digit.
  destruct ((48 <=? Z.of_N (N_of_ascii c)) && (Z.of_N (N_of_ascii c) <=? 57)) eqn:E;
    [|discriminate].
  apply andb_true_iff in E as [E1 E2]. apply Z.leb_le in E1, E2.
  intros [= <-]. lia.
Qed.

Lemma alt2_range (ok : Z -> Z -> bool) (s rest : string) (v : Z) :
  In (v, rest) (alt2 ok s) -> 0 <= v <= 99.
Proof.
  unfold alt2. destruct s as [|c1 [|c2 s]]; try contradiction.
  destruct (digit c1) as [a|] eqn:Ea; try contradiction.
  destruct (digit c2) as [b|] eqn:Eb; try contradiction.
  apply digit_range in Ea. apply digit_range in Eb.
  destruct (ok a b); [|contradiction].
  intros [H | []]. apply (f_equal fst) in H. cbn [fst] in H. lia.
Qed.

Lemma re_mdy_year (s rest : string) (m d y : Z) :
  In (m, d, y, rest) (re_mdy s) -> 0 <= y <= 99.
Proof.
  unfold re_mdy. intros H.
  apply in_flat_map in H as ([m' s1] & _ & H).
  apply in_flat_map in H as (s2 & _ & H).
  apply in_flat_map in H as ([d' s3] & _ & H).
  apply in_flat_map in H as (s4 & _ & H).
  apply in_map_iff in H as ([y' s5] & [= _ _ <- _] & H).
  eapply alt2_range, H.
Qed.

Lemma strptime_year (s : string) (t : datetime) :
  strptime s = Ok t -> 1969 <= year t <= 2068.
Proof.
  unfold strptime.
  destruct (re_mdy s) as [|[[[m d] y] rest] tl] eqn:E; [discriminate|].
  assert (Hy : 0 <= y <= 99).
  { apply (re_mdy_year s rest m d). rewrite E. now left. }
  destruct (negb (String.eqb rest "")); [discriminate|].
  destruct (valid_date _); [|discriminate].
  intros [= <-]. cbn [year].
  destruct (y <=? 68) eqn:E'; [apply Z.leb_le in E' | apply Z.leb_gt in E']; lia.
Qed.

Lemma days_in_month_le_31 (y m : Z) : _days_in_month y m <= 31.
Proof.
  unfold _days_in_month, _DAYS_IN_MONTH.
  destruct ((m =? 2) && _is_leap y); [lia|].
  destruct m as [|p|p]; try lia.
  do 4 (destruct p as [p|p|]; try lia).
Qed.

Lemma toordinal_window (t : datetime) :
  calendar t -> 1969 <= year t <= 2068 ->
  toordinal first_day <= toordinal t <= toordinal last_day.
Proof.
  intros Hc Hy. pose proof Hc as [Hm Hd].
  pose proof (days_in_month_le_31 (year t) (month t)) as H31.
  split; apply toordinal_mono; try exact Hc;
    try (unfold calendar; cbn; lia);
    unfold datetime_le, first_day, last_day; cbn [year month day].
  - destruct (Z.ltb_spec 1969 (year t)); [reflexivity|].
    replace (year t) with 1969 by lia. cbn.
    destruct (Z.ltb_spec 1 (month t)); [reflexivity|].
    replace (month t) with 1 by lia. cbn. apply Z.leb_le. lia.
  - destruct (Z.ltb_spec (year t) 2068); [reflexivity|].
    replace (year t) with 2068 by lia. cbn.
    destruct (Z.ltb_spec (month t) 12); [reflexivity|].
    replace (month t) with 12 by lia. cbn. apply Z.leb_le. lia.
Qed.

(** X11.  The dates of an accepted record lie between 1 January 1969 and
    31 December 2068, the window of ['%y'], so [total_days] is at most
    36524; enrichment writes that [total_days], unless it stops on
    [OverflowError]. *)
Theorem total_days_at_most_a_century (value : record) (log : list log_entry) :
  check_value_set value = (Ok true, log) ->
  exists s e ts te,
    Dict.get "rental_start" value = Some (PStr s)
    /\ Dict.get "rental_end" value = Some (PStr e)
    /\ strptime s = Ok ts /\ strptime e = Ok te
    /\ 1969 <= year ts /\ year te <= 2068
    /\ 0 <= sub_days te ts <= 36524
    /\ (enrich value = (Raise OverflowError, [])
        \/ exists value',
             enrich value = (Ok value', [])
             /\ Dict.get "total_days" value' = Some (PInt (sub_days te ts))).
Proof.
  intros Hchk. apply check_value_set_true in Hchk as [Hacc _].
  destruct (enrich_accepted value Hacc)
    as (s & e & ts & te & p & u & Hs & He & Ps & Pe & Hle & _ & _ & _ & _ & Hd & Hen).
  exists s, e, ts, te.
  pose proof (strptime_year s ts Ps) as Ys.
  pose proof (strptime_year e te Pe) as Ye.
  pose proof (toordinal_window ts (strptime_valid s ts Ps) Ys) as Ws.
  pose proof (toordinal_window te (strptime_valid e te Pe) Ye) as We.
  assert (Hspan : toordinal last_day - toordinal first_day = 36524)
    by (vm_compute; reflexivity).
  repeat (split; [first [assumption | lia]|]).
  split; [unfold sub_days in *; lia|].
  destruct Hen as [Hov | (tp & r & q & _ & _ & Hen)]; [now left|].
  right. eexists. split; [exact Hen|]. apply get_with_derived.
Qed.

(** ** A rental that ends the day it starts *)

Lemma truediv_zero (u : pyval) :
  positive_number u -> py_truediv (PInt 0) u = Ok (PFloat fzero).
Proof.
  destruct u as [|b|z|g|s|l|d]; cbn [positive_number]; try contradiction.
  - intros ->. reflexivity.
  - intros Hz. unfold py_truediv, int_truediv; cbn [as_int].
    destruct (z =? 0) eqn:E; [apply Z.eqb_eq in E; lia|]. cbn.
    destruct (z <? 0) eqn:E'; [apply Z.ltb_lt in E'; lia | reflexivity].
  - intros [Hs Hn]. unfold py_truediv; cbn [as_int].
    change (int_to_float 0) with (Ok fzero). cbn [res_bind].
    unfold float_div. rewrite (nonzero_SFeqb g Hn).
    destruct g as [sg|sg| |sg m e]; cbn in Hs, Hn; try contradiction; subst sg;
      reflexivity.
Qed.

(** X12.  An accepted record whose two dates are the same day and whose
    price is an [int] is always enriched, with [total_days] 0,
    [total_price] 0, and [sqrt_total_price] and [unit_cost] the float
    0.0, whatever the price and the unit count. *)
Theorem same_day_rental_is_free
    (value : record) (log : list log_entry) (s e : string) (p : pyval) (z : Z) :
  check_value_set value = (Ok true, log) ->
  Dict.get "rental_start" value = Some (PStr s) ->
  Dict.get "rental_end" value = Some (PStr e) ->
  strptime e = strptime s ->
  Dict.get "price_per_day" value = Some p ->
  as_int p = Some z ->
  exists value',
    enrich value = (Ok value', [])
    /\ Dict.get "total_days" value' = Some (PInt 0)
    /\ Dict.get "total_price" value' = Some (PInt 0)
    /\ Dict.get "sqrt_total_price" value' = Some (PFloat fzero)
    /\ Dict.get "unit_cost" value' = Some (PFloat fzero).
Proof.
  intros Hchk Hs He Hsame Hp Hz.
  apply check_value_set_true in Hchk as [Hacc _].
  destruct Hacc as [_ _ (s0 & e0 & ts & te & Hs0 & He0 & Ps & Pe & _)
                      (u & Hu & Tu & Gu)].
  assert (s0 = s) by congruence. assert (e0 = e) by congruence. subst s0 e0.
  assert (te = ts) by congruence. subst te.
  exists (with_derived value (PInt 0, PInt 0, PFloat fzero, PFloat fzero)).
  split; [|apply get_with_derived].
  rewrite (enrich_eq value _ _ _ _ Hs He Hp Hu).
  unfold derive. cbn [strptime_obj]. rewrite Hsame, Ps. cbn [res_bind].
  replace (sub_days ts ts) with 0 by (unfold sub_days; lia).
  assert (Hmul : py_mul (PInt 0) p = Ok (PInt 0)).
  { unfold py_mul. cbn [as_int]. rewrite Hz. reflexivity. }
  rewrite Hmul. cbn [res_bind].
  change (math_sqrt (PInt 0)) with (Ok (PFloat fzero)). cbn [res_bind].
  rewrite (truediv_zero u (checked_number u Tu Gu)). reflexivity.
Qed.

(** ** Batches put together *)

(** What a turn does and logs does not depend on the records collected
    so far. *)
Lemma process_item_indep (key : string) (value : record)
    (c1 c2 : Dict.dict record) :
  match process_item key value c1 with
  | (Ok c', l) =>
      (c' = c1 /\ process_item key value c2 = (Ok c2, l))
      \/ exists v', c' = Dict.set key v' c1
                    /\ process_item key value c2 = (Ok (Dict.set key v' c2), l)
  | (Raise e, l) => process_item key value c2 = (Raise e, l)
  end.
Proof.
  unfold process_item.
  destruct (check_value_set value) as [[[|]|x] l0].
  - destruct (enrich value) as [[v'|x] l1]; cbn.
    + right. exists v'. split; reflexivity.
    + destruct x; reflexivity.
  - cbn. left. split; reflexivity.
  - destruct x; reflexivity.
Qed.

Lemma items_loop_indep (items : list (string * record)) :
  forall c1 c2,
  match items_loop items c1 with
  | (Ok _, l) => exists o2, items_loop items c2 = (Ok o2, l)
  | (Raise e, l) => items_loop items c2 = (Raise e, l)
  end.
Proof.
  induction items as [|[key value] items IH]; intros c1 c2.
  - cbn. exists c2. reflexivity.
  - cbn [items_loop]. unfold bind.
    pose proof (process_item_indep key value c1 c2) as Hp.
    destruct (process_item key value c1) as [[c1'|e] l].
    + assert (Hc : exists c2', process_item key value c2 = (Ok c2', l)).
      { destruct Hp as [[_ H] | (v' & _ & H)]; eauto. }
      destruct Hc as [c2' ->].
      specialize (IH c1' c2').
      destruct (items_loop items c1') as [[o1|e] l'].
      * destruct IH as [o2 ->]. eauto.
      * now rewrite IH.
    + now rewrite Hp.
Qed.

Lemma kept_keys (items : list (string * record)) (k : string) :
  In k (Dict.keys (flat_map kept items)) -> In k (Dict.keys items).
Proof.
  unfold Dict.keys. rewrite !in_map_iff.
  intros ([k' v'] & <- & Hin). cbn [fst].
  apply in_flat_map in Hin as (item & Hitem & Hk).
  apply kept_inv in Hk as (-> & _). exists item. auto.
Qed.

(** X13.  A batch that raises on its first records raises the same
    exception, with the same log, whatever records follow them: nothing
    after the record that raised is validated or logged. *)
Theorem batch_stops_at_first_raise
    (pre post : Dict.dict record) (e : exn) (log : list log_entry) :
  calculate_additional_fields pre = (Raise e, log) ->
  calculate_additional_fields (pre ++ post) = (Raise e, log).
Proof.
  unfold calculate_additional_fields. intros H.
  rewrite items_loop_app. unfold bind. now rewrite H.
Qed.

(** X14.  Two batches that return can be run as one: over an input with
    distinct keys that is the first followed by the second, the batch
    returns the first mapping followed by the second, and logs the first
    log followed by the second. *)
Theorem batch_of_concatenation
    (a b outa outb : Dict.dict record) (la lb : list log_entry) :
  Dict.wf (a ++ b) ->
  calculate_additional_fields a = (Ok outa, la) ->
  calculate_additional_fields b = (Ok outb, lb) ->
  calculate_additional_fields (a ++ b) = (Ok (outa ++ outb), la ++ lb).
Proof.
  unfold calculate_additional_fields, Dict.wf, Dict.keys.
  rewrite map_app. intros Hwf Ha Hb.
  assert (Hwa : NoDup (map fst a)) by (eapply NoDup_app_remove_r, Hwf).
  assert (Hwb : NoDup (map fst b)) by (eapply NoDup_app_remove_l, Hwf).
  destruct (items_loop_ok a [] outa la Ha) as (_ & _ & Hoa).
  destruct (items_loop_ok b [] outb lb Hb) as (_ & _ & Hob).
  specialize (Hoa Hwa (fun _ _ => eq_refl)). cbn [app] in Hoa.
  specialize (Hob Hwb (fun _ _ => eq_refl)). cbn [app] in Hob.
  rewrite items_loop_app. unfold bind. rewrite Ha.
  pose proof (items_loop_indep b [] outa) as Hi. rewrite Hb in Hi.
  destruct Hi as [o2 Ho2]. rewrite Ho2.
  destruct (items_loop_ok b outa o2 lb Ho2) as (_ & _ & Ho).
  rewrite Ho; [now rewrite <- Hob | exact Hwb |].
  intros k Hk. apply get_None_not_in. intros Hin.
  rewrite Hoa in Hin. apply kept_keys in Hin.
  clear - Hwf Hin Hk. unfold Dict.keys in Hin.
  induction (map fst a) as [|x l IH]; [contradiction|].
  cbn [app] in Hwf. inversion Hwf as [|? ? Hnotin Hnd]; subst.
  destruct Hin as [-> | Hin].
  - apply Hnotin, in_or_app. now right.
  - now apply IH.
Qed.

(** ** The further properties at records of the examples *)

Lemma negative_price_is_rejected_witness :
  negative_number (PInt (-5))
  /\ check_value_set [("price_per_day", PInt (-5))]
     = outcome (Reject 2 "invalid price_per_day")
  /\ kept ("A", rental "X" (PInt 10) (PInt (-5)) "01/01/20" "01/03/20") = [].
Proof.
  split; [reflexivity|]. split.
  - apply (proj1 (negative_price_is_rejected "A"
                    [("price_per_day", PInt (-5))] (PInt (-5)) eq_refl)).
    reflexivity.
  - apply (proj2 (negative_price_is_rejected "A"
                    (rental "X" (PInt 10) (PInt (-5)) "01/01/20" "01/03/20")
                    (PInt (-5)) eq_refl)).
    right. reflexivity.
Defined.

Lemma batch_exceptions_witness :
  fst (calculate_additional_fields [("A", rental_iso_date)])
  = Raise (SystemExit 0)
  /\ (uncaught (SystemExit 0)
      \/ (SystemExit 0 = SystemExit 0
          /\ exists log0 w,
               snd (calculate_additional_fields [("A", rental_iso_date)])
               = log0 ++ [mk_log ERROR "%s" [ArgExn (ValueError w)]])).
Proof.
  split; [reflexivity|].
  apply (batch_exceptions [("A", rental_iso_date)]). reflexivity.
Defined.

Lemma batch_output_is_kept_records_witness :
  returned (calculate_additional_fields three_rentals) []
  = flat_map kept three_rentals.
Proof.
  apply (batch_output_is_kept_records three_rentals
           (returned (calculate_additional_fields three_rentals) [])
           (snd (calculate_additional_fields three_rentals))
           three_rentals_wf).
  vm_compute. reflexivity.
Defined.

Lemma rejected_record_can_be_dropped_witness :
  fst (check_value_set rental_backward) = Ok false
  /\ fst (calculate_additional_fields
            ([("A", rental_A)] ++ ("B", rental_backward) :: [("C", rental_A)]))
     = fst (calculate_additional_fields ([("A", rental_A)] ++ [("C", rental_A)])).
Proof.
  split; [reflexivity|].
  apply (rejected_record_can_be_dropped
           [("A", rental_A)] [("C", rental_A)] "B" rental_backward).
  reflexivity.
Defined.

Lemma output_records_are_consistent_witness :
  Dict.get "C" (returned (calculate_additional_fields three_rentals) [])
  = Some (returned (enrich rental_A) [])
  /\ check_value_set (returned (enrich rental_A) []) = (Ok true, accept_log).
Proof.
  split; [reflexivity|].
  apply (output_records_are_consistent three_rentals
           (returned (calculate_additional_fields three_rentals) [])
           (snd (calculate_additional_fields three_rentals))
           "C" (returned (enrich rental_A) []) three_rentals_wf).
  - vm_compute. reflexivity.
  - reflexivity.
Defined.

Lemma enrich_keeps_other_fields_witness :
  Dict.keys (returned (enrich rental_A) [])
  = Dict.keys rental_A ++ derived_keys.
Proof.
  apply (enrich_keeps_other_fields rental_A (returned (enrich rental_A) []) []).
  - vm_compute. reflexivity.
  - intros k Hk. cbn in Hk.
    destruct Hk as [<- | [<- | [<- | [<- | []]]]]; reflexivity.
Defined.

Lemma console_shows_one_warning_per_skipped_record_witness :
  (List.length
     (CONSOLE_HANDLER (snd (calculate_additional_fields three_rentals)))
   + 2 = 3)%nat.
Proof.
  apply (console_shows_one_warning_per_skipped_record three_rentals
           (returned (calculate_additional_fields three_rentals) [])
           (snd (calculate_additional_fields three_rentals))
           three_rentals_wf).
  vm_compute. reflexivity.
Defined.

Lemma main_end_to_end_witness :
  main (one_json_loads three_rentals) flat_json_dumps any_path
    "source.json" "out.json" [("source.json", "")]
  = ((Ok tt,
      snd (calculate_additional_fields three_rentals)
      ++ [mk_log DEBUG "Saving file %s" [ArgStr "out.json"]]),
     [("source.json", ""); ("out.json", "{}")]).
Proof.
  apply (main_end_to_end (one_json_loads three_rentals) flat_json_dumps
           any_path "source.json" "out.json" "" three_rentals
           (returned (calculate_additional_fields three_rentals) [])).
  - reflexivity.
  - reflexivity.
  - vm_compute. reflexivity.
  - discriminate.
  - reflexivity.
Defined.

Lemma all_rejected_writes_nothing_witness :
  exists log,
    calculate_additional_fields [("B", rental_backward)] = (Ok [], log)
    /\ List.length (CONSOLE_HANDLER log) = 1%nat
    /\ main (one_json_loads [("B", rental_backward)]) flat_json_dumps any_path
         "source.json" "out.json" [("source.json", "")]
       = ((Ok tt,
           log ++ [mk_log WARNING "Data is invalid. Skipping file writing" []]),
          [("source.json", "")]).
Proof.
  apply (all_rejected_writes_nothing (one_json_loads [("B", rental_backward)])
           flat_json_dumps any_path "source.json" "out.json" ""
           [("B", rental_backward)] [("source.json", "")]).
  - reflexivity.
  - reflexivity.
  - intros item [<- | []]. reflexivity.
Defined.

Lemma total_days_at_most_a_century_witness :
  check_value_set rental_A = (Ok true, accept_log)
  /\ exists s e ts te,
       Dict.get "rental_start" rental_A = Some (PStr s)
       /\ Dict.get "rental_end" rental_A = Some (PStr e)
       /\ strptime s = Ok ts /\ strptime e = Ok te
       /\ 1969 <= year ts /\ year te <= 2068
       /\ 0 <= sub_days te ts <= 36524
       /\ (enrich rental_A = (Raise OverflowError, [])
           \/ exists value',
                enrich rental_A = (Ok value', [])
                /\ Dict.get "total_days" value'
                   = Some (PInt (sub_days te ts))).
Proof.
  split; [reflexivity|].
  apply (total_days_at_most_a_century rental_A accept_log). reflexivity.
Defined.

Lemma same_day_rental_is_free_witness :
  exists value',
    enrich (rental "X" (PInt 10) (PInt 2) "01/01/20" "1/1/20")
    = (Ok value', [])
    /\ Dict.get "total_days" value' = Some (PInt 0)
    /\ Dict.get "total_price" value' = Some (PInt 0)
    /\ Dict.get "sqrt_total_price" value' = Some (PFloat fzero)
    /\ Dict.get "unit_cost" value' = Some (PFloat fzero).
Proof.
  apply (same_day_rental_is_free
           (rental "X" (PInt 10) (PInt 2) "01/01/20" "1/1/20") accept_log
           "01/01/20" "1/1/20" (PInt 10) 10); reflexivity.
Defined.

Lemma batch_stops_at_first_raise_witness :
  calculate_additional_fields ([("A", rental_iso_date)] ++ [("B", rental_A)])
  = calculate_additional_fields [("A", rental_iso_date)].
Proof.
  apply (batch_stops_at_first_raise [("A", rental_iso_date)] [("B", rental_A)]
           (SystemExit 0)
           (snd (calculate_additional_fields [("A", rental_iso_date)]))).
  reflexivity.
Defined.

Lemma batch_of_concatenation_witness :
  calculate_additional_fields
    ([("A", rental_A)] ++ [("B", rental_backward); ("C", rental_A)])
  = (Ok (returned (calculate_additional_fields [("A", rental_A)]) []
         ++ returned (calculate_additional_fields
                        [("B", rental_backward); ("C", rental_A)]) []),
     snd (calculate_additional_fields [("A", rental_A)])
     ++ snd (calculate_additional_fields
               [("B", rental_backward); ("C", rental_A)])).
Proof.
  apply (batch_of_concatenation
           [("A", rental_A)] [("B", rental_backward); ("C", rental_A)]).
  - exact three_rentals_wf.
  - vm_compute. reflexivity.
  - vm_compute. reflexivity.
Defined.

(** ** The program and its log file *)

Section ProgramFacts.

Variable json_loads : string -> option (Dict.dict record).
Variable json_dumps : Dict.dict record -> Z -> string.
Variable writable : string -> bool.
Variable LOG_FILE : string.
Variable render : list log_entry -> string.




End ProgramFacts.

